(** * Webstore: the REST handlers of [webstore/web.py]

    A shallow embedding of the request handlers: query
    translation ([_request_query]), table lookup ([_get_table]), and the
    [index], [sql], [create], [create_named], [read], [row], [update] and [delete]
    endpoints, over a model of the table gateway they drive.

    Python exceptions are results in the [Exc] monad; the database the handlers
    mutate is threaded explicitly as a [World]. *)

From stdpp Require Import gmap strings list fin_maps pretty.
From Stdlib Require Import ZArith Ascii String.

(** ** Data *)

(** A scalar cell value. *)
Inductive scalar :=
| SNull
| SInt (z : Z)
| SStr (s : string).

#[global] Instance scalar_eq_dec : EqDecision scalar.
Proof. solve_decision. Defined.

(** A row is a Python [dict] from column name to value. *)
Abbreviation Row := (gmap string scalar).

(** The [format] argument the handlers pass on to the renderer: the route's
    optional suffix, or, inside [_request_query], where no such name is bound,
    Python's builtin function [format]. *)
Inductive fmt :=
| FmtArg (f : option string)
| FmtBuiltin.

Inductive state := success | error.

(** The response envelope: a control message or a table payload. *)
Record Message := mkMessage {
  m_message : string;
  m_format : fmt;
  m_state : state;
  m_code : Z;
  m_url : option string
}.

Record TablePayload := mkTablePayload {
  t_rows : list Row;
  t_keys : list string;
  t_format : fmt
}.

Inductive Response :=
| RMessage (m : Message)
| RTable (t : TablePayload).

(** The exceptions the handlers raise or meet. [WebstoreException] is the
    source's [HTTPException] subclass and carries its rendered response. *)
Inductive exn :=
| WebstoreException (response : Response)
| ValueError (msg : string)
| KeyError (key : string)
| TypeError (msg : string)
| OperationalError (message : string).

Inductive Exc (A : Type) :=
| Return (a : A)
| Raise (e : exn).
Arguments Return {A} a.
Arguments Raise {A} e.

#[global] Instance Exc_ret : MRet Exc := @Return.
#[global] Instance Exc_bind : MBind Exc := fun A B k m =>
  match m with
  | Return a => k a
  | Raise e => Raise e
  end.

(** ** Python builtins used by the handlers *)
Module Py.

Definition is_upper (c : ascii) : bool :=
  let n := N_of_ascii c in ((65 <=? n) && (n <=? 90))%N.

Definition lower_char (c : ascii) : ascii :=
  if is_upper c then ascii_of_N (N_of_ascii c + 32) else c.

(** [s.lower()] on ASCII text. *)
Fixpoint lower (s : string) : string :=
  match s with
  | EmptyString => EmptyString
  | String c s' => String (lower_char c) (lower s')
  end.

(** [c in s] for a one-character [c]. *)
Fixpoint contains (c : ascii) (s : string) : bool :=
  match s with
  | EmptyString => false
  | String d s' => if decide (d = c) then true else contains c s'
  end.

(** [s.split(sep, 1)] unpacked into two names: the text before the first
    [sep] and the text after it; [None] when there is no [sep] and the
    unpacking has a single value. *)
Fixpoint split1 (sep : ascii) (s : string) : option (string * string) :=
  match s with
  | EmptyString => None
  | String c s' =>
      if decide (c = sep) then Some (EmptyString, s')
      else '(a, b) ← split1 sep s'; Some (String c a, b)
  end.

Definition is_space (c : ascii) : bool :=
  match N_of_ascii c with
  | 9 | 10 | 11 | 12 | 13 | 32 => true
  | _ => false
  end%N.

Fixpoint lstrip (s : string) : string :=
  match s with
  | EmptyString => EmptyString
  | String c s' => if is_space c then lstrip s' else s
  end.

Definition digit (c : ascii) : option Z :=
  let n := Z.of_N (N_of_ascii c) in
  if ((48 <=? n) && (n <=? 57))%Z then Some (n - 48)%Z else None.

(** The leading decimal digits of [s], accumulated onto [acc], and the text
    after them. *)
Fixpoint digits (acc : Z) (s : string) : Z * string :=
  match s with
  | EmptyString => (acc, EmptyString)
  | String c s' =>
      match digit c with
      | Some d => digits (10 * acc + d)%Z s'
      | None => (acc, s)
      end
  end.

(** [repr(s)] for plain text: printable ASCII without quotes or
    backslashes, which Python would escape. *)
Definition repr (s : string) : string := "'" +:+ s +:+ "'".

Definition invalid_literal (s : string) : exn :=
  ValueError ("invalid literal for int() with base 10: " +:+ repr s).

(** [int(s)] on ASCII text, base 10: blanks, an optional sign, one or more
    decimal digits, blanks.  Results are unbounded.  What it reads Python
    reads, to the same integer; Python also reads decimal digits and blanks
    outside ASCII, which this refuses. *)
Definition int (s : string) : Exc Z :=
  let s1 := lstrip s in
  let '(sign, s2) :=
    match s1 with
    | String "-" r => ((-1)%Z, r)
    | String "+" r => (1%Z, r)
    | _ => (1%Z, s1)
    end in
  match s2 with
  | EmptyString => Raise (invalid_literal s)
  | String c _ =>
      match digit c with
      | None => Raise (invalid_literal s)
      | Some _ =>
          let '(n, rest) := digits 0 s2 in
          match lstrip rest with
          | EmptyString => Return (sign * n)%Z
          | String _ _ => Raise (invalid_literal s)
          end
      end
  end.

End Py.

(** ** werkzeug's [MultiDict]: the query parameters *)
Module MultiDict.

(** Each key present holds its values in request order: a first value and
    the further ones. *)
Abbreviation t := (gmap string (string * list string)).

(** [key in d] *)
Definition contains (key : string) (d : t) : bool :=
  bool_decide (is_Some (d !! key)).

(** [d.pop(key, None)]: the first value of [key], which is removed with all
    its values. *)
Definition pop (key : string) (d : t) : option string * t :=
  (fst <$> d !! key, delete key d).

(** [d.poplist(key)]: every value of [key], which is removed. *)
Definition poplist (key : string) (d : t) : list string * t :=
  (match d !! key with Some (v, vs) => v :: vs | None => [] end,
   delete key d).

(** [d.getlist(key)] *)
Definition getlist (key : string) (d : t) : list string :=
  match d !! key with Some (v, vs) => v :: vs | None => [] end.

(** [d.get(key)] *)
Definition get (key : string) (d : t) : option string := fst <$> d !! key.

(** [d.items()]: each key with its first value. *)
Definition items (d : t) : list (string * string) :=
  (fun kv => (kv.1, kv.2.1)) <$> map_to_list d.

End MultiDict.

(** What a handler reads of flask's [request] and of its context.  flask's
    [url_for(endpoint, **values)] builds a URL with the URL adapter bound to
    the request (its script root, its quoting of the values): it is the
    request's [url_for], given the endpoint and the values in the order the
    handler writes them. *)
Record Request := mkRequest {
  args : MultiDict.t;
  content_type : string;
  data : string;
  body_rows : list Row;
  url_for : string → list (string * string) → string
}.

(** ** Sorting, clauses and query arguments (SQLAlchemy expressions) *)

Inductive direction := Asc | Desc.

(** [asc(column)] and [desc(column)]. *)
Record sort_clause := mkSort { sort_dir : direction; sort_col : string }.

(** What [_request_query] binds [order] to: one of the two functions, or the
    default of the lookup, which is the text ['asc']. *)
Inductive order_val :=
| OrderFn (d : direction)
| OrderStr (s : string).

(** A where clause: the empty text [''] the row endpoint passes, or the
    conjunction of equalities the gateway builds from filter parameters. *)
Inductive Clause :=
| ClauseEmpty
| ClauseAnd (eqs : list (string * string)).

(** The keyword arguments of [select]. *)
Record QueryArgs := mkArgs {
  limit : option Z;
  offset : option Z;
  order_by : list sort_clause
}.

(** The [**queryargs] a caller of [_request_query] supplies; [None] is a
    keyword left out. *)
Record kwargs := mkKwargs { kw_limit : option Z; kw_offset : option Z }.

(** A result proxy: the column names and the tuples still to be fetched. *)
Record ResultProxy := mkResult {
  rp_keys : list string;
  rp_pending : list (list scalar)
}.

(** ** The table gateway ([webstore.core], [webstore.formats] and the engine) *)
Module Gateway.

(** Modelled from the spec: the table and database classes of [webstore.core]
    are missing.  A table has its schema, discovered at access time, and its
    rows, oldest first. *)
Record Table := mkTable { columns : list string; rows : list Row }.

(** Modelled from the spec: the tables of a database by name, and the
    databases the factory resolves by name. *)
Abbreviation Database := (gmap string Table).
Abbreviation World := (gmap string Database).

(** Modelled from the spec: a database handle, and the request-scoped table
    handle with its pending state ([None] once dropped). *)
Record DbHandle := mkDb { db_name : string; db_tables : Database }.

Record TableHandle := mkHandle {
  h_database : string;
  h_name : string;
  h_table : option Table
}.

(** Modelled from the spec: [app.db_factory.create] is missing; a database
    is resolved lazily by name. *)
Definition db_factory_create (w : World) (database : string) : DbHandle :=
  mkDb database (default ∅ (w !! database)).

(** Modelled from the spec: the database's [__contains__] is missing;
    [exists() -> bool]. *)
Definition db_contains (table : string) (db : DbHandle) : bool :=
  bool_decide (is_Some (db_tables db !! table)).

(** Modelled from the spec: the database's [__getitem__] is missing; it
    resolves a table handle by name, an absent table starting out empty. *)
Definition db_getitem (db : DbHandle) (table : string) : TableHandle :=
  mkHandle (db_name db) table
    (Some (default (mkTable [] []) (db_tables db !! table))).

(** Modelled from the spec: the engine's [table_names] is missing;
    [listTables(database) -> sequence of names]. *)
Definition table_names (db : DbHandle) : list string :=
  (map_to_list (db_tables db)).*1.

(** [row.keys()] *)
Definition keys (row : Row) : list string := (map_to_list row).*1.

(** Modelled from the spec: part of the missing [add_row] and [update_row];
    the schema is not declared, it grows by the columns of [row] it does not
    have yet. *)
Definition ensure_columns (row : Row) (cols : list string) : list string :=
  cols ++ filter (fun c => c ∉ cols) (keys row).

(** Modelled from the spec: the table's [add_row] is missing; it appends
    one row and skips silently if the row is empty. *)
Definition add_row (row : Row) (h : TableHandle) : TableHandle :=
  match h_table h with
  | Some t =>
      if decide (row = ∅) then h
      else mkHandle (h_database h) (h_name h)
             (Some (mkTable (ensure_columns row (columns t)) (rows t ++ [row])))
  | None => h
  end.

(** Modelled from the spec: part of the missing [update_row]; whether the
    stored row [r] has the values of [row] at the [unique] columns. *)
Definition row_matches (unique : list string) (row r : Row) : bool :=
  forallb (fun u => bool_decide (r !! u = row !! u)) unique.

(** Modelled from the spec: part of the missing [update_row]; the positions,
    from [i] on, of the rows matching [row]. *)
Fixpoint matching (unique : list string) (row : Row) (i : nat)
    (rs : list Row) : list nat :=
  match rs with
  | [] => []
  | r :: rs' =>
      if row_matches unique row r then i :: matching unique row (S i) rs'
      else matching unique row (S i) rs'
  end.

(** Modelled from the spec: the table's [update_row] is missing.  Given a
    non-empty [unique] it attempts to locate exactly one existing row whose
    values at those columns match; if found, the row takes the posted
    values and an update is reported.  Otherwise nothing is written and no
    update is reported, the caller then adding the row; an empty [unique]
    attempts no matching.  The spec does not say what several matches do:
    here they are no single located row. *)
Definition update_row (unique : list string) (row : Row) (h : TableHandle)
    : TableHandle * bool :=
  match unique, h_table h with
  | _ :: _, Some t =>
      match matching unique row 0 (rows t) with
      | [i] =>
          (mkHandle (h_database h) (h_name h)
             (Some (mkTable (ensure_columns row (columns t))
                      (alter (fun r => row ∪ r) i (rows t)))), true)
      | _ => (h, false)
      end
  | _, _ => (h, false)
  end.

(** Modelled from the spec: the table's [drop] is missing; it deletes the
    table structure and all its data. *)
Definition drop (h : TableHandle) : TableHandle :=
  mkHandle (h_database h) (h_name h) None.

(** Modelled from the spec: the table's [commit] is missing; it persists the
    pending writes of the handle. *)
Definition commit (w : World) (h : TableHandle) : World :=
  let db := default ∅ (w !! h_database h) in
  match h_table h with
  | Some t => <[h_database h := <[h_name h := t]> db]> w
  | None => <[h_database h := delete (h_name h) db]> w
  end.

(** Modelled from the spec: the table's [args_to_clause] is missing;
    [buildPredicate] resolves each key against the known columns, an unknown
    column name failing (here with the [KeyError] the handler catches), and
    the filter keys are equality predicates. *)
Definition args_to_clause (h : TableHandle) (params : MultiDict.t)
    : Exc Clause :=
  let cols := from_option columns [] (h_table h) in
  match filter (fun kv => kv.1 ∉ cols) (MultiDict.items params) with
  | [] => Return (ClauseAnd (MultiDict.items params))
  | (key, _) :: _ => Raise (KeyError key)
  end.

(** Modelled from the spec: part of the engine's select; the value of a row
    at a column, [NULL] where it has none. *)
Definition cell (r : Row) (c : string) : scalar := default SNull (r !! c).

(** Modelled from the spec: part of the engine's select; a posted filter
    value against a stored value, an equality predicate. *)
Definition value_matches (x : scalar) (v : string) : bool :=
  match x with
  | SNull => false
  | SInt z => bool_decide (pretty z = v)
  | SStr s => bool_decide (s = v)
  end.

(** Modelled from the spec: part of the engine's select; the predicate of a
    where clause, the empty text being always true. *)
Definition clause_holds (c : Clause) (r : Row) : bool :=
  match c with
  | ClauseEmpty => true
  | ClauseAnd eqs => forallb (fun kv => value_matches (cell r kv.1) kv.2) eqs
  end.

(** Modelled from the spec: part of the engine's select; its ordering of
    values, [NULL], then numbers, then text. *)
Definition scalar_compare (x y : scalar) : comparison :=
  match x, y with
  | SNull, SNull => Eq
  | SNull, _ => Lt
  | _, SNull => Gt
  | SInt a, SInt b => (a ?= b)%Z
  | SInt _, SStr _ => Lt
  | SStr _, SInt _ => Gt
  | SStr a, SStr b => String.compare a b
  end.

(** Modelled from the spec: part of the engine's select; descending order
    reverses the comparison. *)
Definition directed (d : direction) (c : comparison) : comparison :=
  match d with Asc => c | Desc => CompOpp c end.

(** Modelled from the spec: part of the engine's select; the composite
    ordering, earlier sort clauses taking precedence. *)
Fixpoint row_compare (order : list sort_clause) (r1 r2 : Row) : comparison :=
  match order with
  | [] => Eq
  | s :: rest =>
      match directed (sort_dir s)
              (scalar_compare (cell r1 (sort_col s)) (cell r2 (sort_col s)))
      with
      | Eq => row_compare rest r1 r2
      | c => c
      end
  end.

(** Modelled from the spec: part of the engine's select; [r] goes before the
    first row it does not come after. *)
Fixpoint insert_row (order : list sort_clause) (r : Row) (sorted : list Row)
    : list Row :=
  match sorted with
  | [] => [r]
  | r' :: rest =>
      match row_compare order r r' with
      | Gt => r' :: insert_row order r rest
      | _ => r :: sorted
      end
  end.

(** Modelled from the spec: part of the engine's select; a stable sort of
    the rows. *)
Definition sort_rows (order : list sort_clause) (rs : list Row) : list Row :=
  foldr (insert_row order) [] rs.

(** Modelled from the spec: part of the engine's select; [OFFSET] then
    [LIMIT].  The spec fixes the non-negative values; a negative offset
    counts as none and a negative limit as no limit. *)
Definition paginate {A} (limit offset : option Z) (l : list A) : list A :=
  let l := match offset with
           | Some o => List.skipn (Z.to_nat o) l
           | None => l
           end in
  match limit with
  | Some n => if (n <? 0)%Z then l else List.firstn (Z.to_nat n) l
  | None => l
  end.

(** Modelled from the spec: [_table.table.select(whereclause, **args)] run
    by [_table.bind.execute] is the engine's; [query(predicate, sort, limit,
    offset)] executes a single read, returning [min(limit, available -
    offset)] rows, and a backend execution error (here a sort column the
    table does not have, or a dropped table) fails. *)
Definition execute_select (h : TableHandle) (whereclause : Clause)
    (args : QueryArgs) : Exc ResultProxy :=
  match h_table h with
  | None => Raise (OperationalError ("no such table: " +:+ h_name h))
  | Some t =>
      match filter (fun s => sort_col s ∉ columns t) (order_by args) with
      | s :: _ => Raise (OperationalError ("no such column: " +:+ sort_col s))
      | [] =>
          let kept := List.filter (clause_holds whereclause) (rows t) in
          let page := paginate (limit args) (offset args)
                        (sort_rows (order_by args) kept) in
          Return (mkResult (columns t)
                    ((fun r => cell r <$> columns t) <$> page))
      end
  end.

(** Modelled from the spec: [webstore.formats.render_message] is missing;
    the envelope of a control response. *)
Definition render_message (message : string) (format : fmt) (st : state)
    (code : Z) (url : option string) : Response :=
  RMessage (mkMessage message format st code url).

(** Modelled from the spec: [webstore.formats.render_table] is missing; the
    table payload of a data response. *)
Definition render_table (table : list Row) (keys : list string)
    (format : fmt) : Response :=
  RTable (mkTablePayload table keys format).

(** Modelled from the spec: [webstore.formats.read_request] is missing; the
    decoder yields the rows of the body. *)
Definition read_request (request : Request) (format : option string)
    : list Row :=
  body_rows request.

(** The HTTP status of a response. *)
Definition status (r : Response) : Z :=
  match r with
  | RMessage m => m_code m
  | RTable _ => 200%Z
  end.

End Gateway.

(** ** The handlers of [webstore/web.py] *)
Module Web.
Import Gateway.

(** [try: body / except <caught>: handler], followed by [rest]. *)
Definition try_except {A B} (body : Exc A) (handler : exn -> option (Exc B))
    (rest : A -> Exc B) : Exc B :=
  match body with
  | Return a => rest a
  | Raise e =>
      match handler e with
      | Some r => r
      | None => Raise e
      end
  end.

(** [dict(zip(keys, row))]: a later duplicate key overrides. *)
Definition dict_zip (keys : list string) (row : list scalar) : Row :=
  foldl (fun d kv => <[kv.1 := kv.2]> d) ∅ (zip keys row).

(** [rp.fetchone()] *)
Definition fetchone (rp : ResultProxy) : option (list scalar) * ResultProxy :=
  match rp_pending rp with
  | [] => (None, rp)
  | row :: rest => (Some row, mkResult (rp_keys rp) rest)
  end.

(** The generator's [while True] loop, each [yield] adding a row.  The loop
    leaves when [fetchone] returns [None]; [fuel] bounds the fetches. *)
Fixpoint fetch_loop (fuel : nat) (keys : list string) (rp : ResultProxy)
    : list Row :=
  match fuel with
  | O => []
  | S fuel =>
      match fetchone rp with
      | (None, _) => []
      | (Some row, rp) => dict_zip keys row :: fetch_loop fuel keys rp
      end
  end.

(** The generator run to exhaustion: one fetch for each pending tuple and
    the one that returns [None]. *)
Definition _result_proxy_iterator (rp : ResultProxy) : list Row :=
  let keys := rp.(rp_keys) in
  fetch_loop (S (List.length (rp_pending rp))) keys rp.

(** [HTTPException.get_response]: what the client is served.  A
    [WebstoreException] is served as the response it carries; any other
    exception is no response of the handlers. *)
Definition get_response (r : Exc Response) : option Response :=
  match r with
  | Return resp => Some resp
  | Raise (WebstoreException resp) => Some resp
  | Raise _ => None
  end.

(** Locate a named table or raise a 404. *)
Definition _get_table (w : World) (database table : string)
    (format : option string) : Exc TableHandle :=
  let db := db_factory_create w database in
  if negb (db_contains table db) then
    Raise (WebstoreException
             (render_message ("No such table: " +:+ table)
                (FmtArg format) error 404 None))
  else Return (db_getitem db table).

(** [int(params.pop(key, None)) if key in params else None] *)
Definition pop_int (key : string) (params : MultiDict.t)
    : Exc (option Z * MultiDict.t) :=
  if MultiDict.contains key params then
    let '(v, params) := MultiDict.pop key params in
    match v with
    | Some v => n ← Py.int v; Return (Some n, params)
    | None =>
        Raise (TypeError
                 "int() argument must be a string or a number, not 'NoneType'")
    end
  else Return (None, params).

(** [{'asc': asc, 'desc': desc}.get(key, 'asc')] *)
Definition order_get (key : string) : order_val :=
  if decide (key = "asc") then OrderFn Asc
  else if decide (key = "desc") then OrderFn Desc
  else OrderStr "asc".

(** [order(column)] *)
Definition call_order (order : order_val) (column : string)
    : Exc sort_clause :=
  match order with
  | OrderFn d => Return (mkSort d column)
  | OrderStr _ => Raise (TypeError "'str' object is not callable")
  end.

(** The loop over [params.poplist('_sort')]. *)
Fixpoint sort_loop (values : list string) (sorts : list sort_clause)
    : Exc (list sort_clause) :=
  match values with
  | [] => Return sorts
  | sort :: values =>
      if negb (Py.contains ":" sort) then
        Raise (WebstoreException
                 (render_message "Invalid sorting format, use: order:column"
                    FmtBuiltin error 400 None))
      else
        match Py.split1 ":" sort with
        | None => Raise (ValueError "need more than 1 value to unpack")
        | Some (order, column) =>
            let order := order_get (Py.lower order) in
            clause ← call_order order column;
            sort_loop values (sorts ++ [clause])
        end
  end.

(** The closure [_query] that [_request_query] returns, over the table and
    the select arguments it captures. *)
Definition _query (_table : TableHandle) (args : QueryArgs)
    (whereclause : Clause) : Exc ResultProxy :=
  try_except (execute_select _table whereclause args)
    (fun e =>
       match e with
       | OperationalError message =>
           Some (Raise (WebstoreException
                          (render_message ("Invalid query: " +:+ message)
                             FmtBuiltin error 400 None)))
       | _ => None
       end)
    Return.

(** From a set of query parameters, apply those that affect a query result
    set: limit, offset and sorting.  Returns the remaining query parameters
    and the curried call to the database.  The name [format] it hands to the
    renderer is bound nowhere in the module: it is the builtin. *)
Definition _request_query (_table : TableHandle) (_params : MultiDict.t)
    (queryargs : kwargs)
    : Exc (MultiDict.t * (Clause -> Exc ResultProxy)) :=
  let params := _params in
  '(limit, offset, params) ←
    try_except
      ('(limit, params) ← pop_int "_limit" params;
       '(offset, params) ← pop_int "_offset" params;
       Return (limit, offset, params))
      (fun e =>
         match e with
         | ValueError ve =>
             Some (Raise (WebstoreException
                            (render_message ("Invalid value: " +:+ ve)
                               FmtBuiltin error 400 None)))
         | _ => None
         end)
      Return;
  let '(values, params) := MultiDict.poplist "_sort" params in
  sorts ← sort_loop values [];
  let args := mkArgs (from_option Some limit (kw_limit queryargs))
                (from_option Some offset (kw_offset queryargs)) sorts in
  Return (params, _query _table args).

(** [GET /db/<database>]: give a list of all tables in the database. *)
Definition index (w : World) (request : Request) (database : string)
    (format : option string) : Exc Response :=
  let db := db_factory_create w database in
  let tables :=
    foldl (fun tables table =>
             let url := url_for request "read"
                          [("database", database); ("table", table)] in
             tables ++ [({[ "name" := SStr table; "url" := SStr url ]} : Row)])
      [] (table_names db) in
  Return (render_table tables ["name"; "url"; "columns"] (FmtArg format)).


(** [POST /db/<database>/<table>] *)
Definition create_named (w : World) (request : Request)
    (database table : string) (format : option string)
    : World * Exc Response :=
  let db := db_factory_create w database in
  if db_contains table db then
    (w, Return (render_message ("Table already exists: " +:+ table)
                  (FmtArg format) error 409
                  (Some (url_for request "read"
                           [("database", database); ("table", table)]))))
  else
    let _table := db_getitem db table in
    let reader := read_request request format in
    let _table :=
      foldl (fun _table row =>
               if negb (List.length (keys row) =? 0) then add_row row _table
               else _table)
        _table reader in
    let w := commit w _table in
    (w, Return (render_message ("Successfully created: " +:+ table)
                  (FmtArg format) success 201
                  (Some (url_for request "read"
                           [("database", database); ("table", table)])))).

(** [POST /db/<database>]: the table is named by the query argument [table]
    ([request.args.get('table')] once ['table' in request.args] holds); this
    forwards to the URL variant. *)
Definition create (w : World) (request : Request) (database : string)
    (format : option string) : World * Exc Response :=
  match MultiDict.get "table" (args request) with
  | None =>
      (w, Return (render_message "Missing argument: table" (FmtArg format)
                    error 400 None))
  | Some table => create_named w request database table format
  end.

(** [GET /db/<database>/<table>] *)
Definition read (w : World) (request : Request) (database table : string)
    (format : option string) : Exc Response :=
  _table ← _get_table w database table format;
  '(params, _query) ← _request_query _table (args request) (mkKwargs None None);
  try_except (args_to_clause _table params)
    (fun e =>
       match e with
       | KeyError ke =>
           Some (Return (render_message ("Invalid filter: " +:+ Py.repr ke)
                           (FmtArg format) error 400 None))
       | _ => None
       end)
    (fun clause =>
       results ← _query clause;
       Return (render_table (_result_proxy_iterator results)
                 (rp_keys results) (FmtArg format))).

(** [GET /db/<database>/<table>/row/<row>].  In the handler of [ValueError]
    the name [row] is the text of the URL until [int(row)] has rebound it. *)
Definition row (w : World) (request : Request) (database table : string)
    (row : string) (format : option string) : Exc Response :=
  _table ← _get_table w database table format;
  let invalid (shown : string) : option (Exc Response) :=
    Some (Raise (WebstoreException
                   (render_message ("Invalid row ID: " +:+ shown)
                      (FmtArg format) error 400 None))) in
  try_except (Py.int row)
    (fun e => match e with ValueError _ => invalid row | _ => None end)
    (fun n =>
       try_except
         (if decide (n = 0%Z) then
            Raise (WebstoreException
                     (render_message
                        "Starting at offset 1 to allow header row"
                        (FmtArg format) error 400 None))
          else
            '(params, _query) ←
              _request_query _table (args request)
                (mkKwargs (Some 1%Z) (Some (n - 1)%Z));
            results ← _query ClauseEmpty;
            Return (render_table (_result_proxy_iterator results)
                      (rp_keys results) (FmtArg format)))
         (fun e =>
            match e with ValueError _ => invalid (pretty n) | _ => None end)
         Return).

(** The body of the loop of [update] over the posted rows. *)
Definition update_step (unique : list string) (_table : TableHandle)
    (row : Row) : TableHandle :=
  if List.length (keys row) =? 0 then _table
  else
    let '(_table', updated) := update_row unique row _table in
    if negb updated then add_row row _table' else _table'.

(** [PUT /db/<database>/<table>] *)
Definition update (w : World) (request : Request) (database table : string)
    (format : option string) : World * Exc Response :=
  match _get_table w database table format with
  | Raise e => (w, Raise e)
  | Return _table =>
      let unique := MultiDict.getlist "unique" (args request) in
      let reader := read_request request format in
      let _table := foldl (update_step unique) _table reader in
      let w := commit w _table in
      (w, Return (render_message ("Table updated: " +:+ table)
                    (FmtArg format) success 201
                    (Some (url_for request "read"
                             [("database", database); ("table", table)]))))
  end.

(** [DELETE /db/<database>/<table>] *)
Definition delete (w : World) (request : Request) (database table : string)
    (format : option string) : World * Exc Response :=
  match _get_table w database table format with
  | Raise e => (w, Raise e)
  | Return _table =>
      let _table := drop _table in
      let w := commit w _table in
      (w, Return (render_message ("Table dropped: " +:+ table)
                    (FmtArg format) success 410 None))
  end.

End Web.

(** ** Vocabulary of the statements *)

Import Gateway.

(** The stored table [table] of [database], if any. *)
Definition lookup_table (w : World) (database table : string) : option Table :=
  default ∅ (w !! database) !! table.

(** The request [request] with [reader] as its decoded body. *)
Definition with_rows (request : Request) (reader : list Row) : Request :=
  mkRequest (args request) (content_type request) (data request) reader
    (url_for request).

(** The text [o] of a control parameter, absent or holding the integer [n]. *)
Definition parsed (o : option string) (n : option Z) : Prop :=
  match o, n with
  | None, None => True
  | Some v, Some n => Py.int v = Return n
  | _, _ => False
  end.

(** A [_sort] value whose direction, where it has one, is one of the two the
    lookup knows. *)
Definition known_direction (sort : string) : Prop :=
  ∀ order column, Py.split1 ":" sort = Some (order, column) →
    Py.lower order = "asc" ∨ Py.lower order = "desc".

(** A character of plain text: printable ASCII other than the quote and the
    backslash, which [repr] escapes, and the underscore, which later Pythons
    read between digits. *)
Definition plain_char (c : ascii) : bool :=
  let n := N_of_ascii c in
  ((32 <=? n) && (n <=? 126) && negb (n =? 39) && negb (n =? 92)
   && negb (n =? 95))%N.

(** Plain text.  On it [Py.int] and [Py.repr] are Python's [int] and [repr];
    beyond it Python also reads the digits and blanks of other scripts and
    escapes what it prints, so what is stated of a text that [Py.int] refuses,
    or of the text [repr] shows, is stated of plain text. *)
Fixpoint plain (s : string) : bool :=
  match s with
  | EmptyString => true
  | String c s' => plain_char c && plain s'
  end.


(** The 400 that names a value [int] refused. *)
Definition invalid_value (v : string) : Response :=
  render_message
    ("Invalid value: invalid literal for int() with base 10: '" +:+ v +:+ "'")
    FmtBuiltin error 400 None.

(** A control message with status 400. *)
Definition bad_request (resp : Response) : Prop :=
  ∃ message format url, resp = render_message message format error 400 url.

(** ** A small store for the examples *)
Module Sample.

Definition row_1a : Row := {[ "id" := SInt 1; "name" := SStr "a" ]}.
Definition row_1b : Row := {[ "id" := SInt 1; "name" := SStr "b" ]}.
Definition row_2c : Row := {[ "id" := SInt 2; "name" := SStr "c" ]}.

Definition people : Table := mkTable ["id"; "name"] [row_1a].

(** The database [d] with the one table [t]. *)
Definition world : World := {[ "d" := {[ "t" := people ]} ]}.

(** The URL builder of an application mounted at the root, for the endpoints
    of a table and values that need no quoting. *)
Definition root_url_for (endpoint : string) (values : list (string * string))
    : string :=
  match values with
  | [(_, database); (_, table)] => "/db/" +:+ database +:+ "/" +:+ table
  | _ => "/"
  end.

(** A request with the given query parameters and decoded body. *)
Definition request (query : MultiDict.t) (reader : list Row) : Request :=
  mkRequest query "application/json" "" reader root_url_for.



End Sample.

(** ** Rows and handles *)

Section Handles.
Implicit Types (h : TableHandle) (row : Row) (w : World).

Lemma keys_length_0 row : (List.length (keys row) =? 0) = true ↔ row = ∅.
Proof.
  unfold keys. rewrite Nat.eqb_eq, length_fmap.
  rewrite <- map_to_list_empty_iff.
  destruct (map_to_list row); simpl; split; intros; congruence.
Qed.

Lemma keys_nonempty row : row ≠ ∅ → (List.length (keys row) =? 0) = false.
Proof.
  intros Hne. destruct (List.length (keys row) =? 0) eqn:E; [|done].
  by apply keys_length_0 in E.
Qed.

Lemma update_step_empty unique h : Web.update_step unique h ∅ = h.
Proof.
  unfold Web.update_step.
  by rewrite (proj2 (keys_length_0 ∅) eq_refl).
Qed.

Lemma lookup_table_Some w database table t :
  lookup_table w database table = Some t →
  ∃ db, w !! database = Some db ∧ db !! table = Some t.
Proof.
  unfold lookup_table. destruct (w !! database) as [db|]; simpl.
  - eauto.
  - by rewrite lookup_empty.
Qed.

Lemma get_table_existing w database table format t :
  lookup_table w database table = Some t →
  Web._get_table w database table format
  = Return (mkHandle database table (Some t)).
Proof.
  intros Ht. unfold Web._get_table, db_contains, db_getitem,
    db_factory_create; simpl.
  unfold lookup_table in Ht. by rewrite Ht.
Qed.

Lemma get_table_missing w database table format :
  lookup_table w database table = None →
  Web._get_table w database table format
  = Raise (WebstoreException
             (render_message ("No such table: " +:+ table) (FmtArg format)
                error 404 None)).
Proof.
  intros Ht. unfold Web._get_table, db_contains, db_factory_create; simpl.
  unfold lookup_table in Ht. by rewrite Ht.
Qed.

Lemma lookup_table_commit w database table o :
  lookup_table (commit w (mkHandle database table o)) database table = o.
Proof.
  unfold commit, lookup_table; simpl. destruct o as [t|].
  - rewrite lookup_insert_eq. simpl. by rewrite lookup_insert_eq.
  - rewrite lookup_insert_eq. simpl. by rewrite lookup_delete_eq.
Qed.

Lemma commit_unchanged w database table t :
  lookup_table w database table = Some t →
  commit w (mkHandle database table (Some t)) = w.
Proof.
  intros (db & Hdb & Ht)%lookup_table_Some. unfold commit; simpl.
  rewrite Hdb; simpl. rewrite (insert_id db) by done. by apply insert_id.
Qed.

End Handles.

(** ** Write paths: create, delete, sql *)

Section Writes.
Implicit Types (h : TableHandle) (row : Row) (w : World) (t : Table).

(** C6: creating a table that already exists answers 409 with the URL that
    [url_for] builds for the endpoint [read] of that database and table, and
    leaves the store as it was, whether the table is named in the path
    ([create_named]) or by the [table] argument ([create]). *)
Theorem create_existing_conflict w request database table format t :
  lookup_table w database table = Some t →
  let conflict :=
    render_message ("Table already exists: " +:+ table) (FmtArg format)
      error 409
      (Some (url_for request "read"
               [("database", database); ("table", table)])) in
  Web.create_named w request database table format = (w, Return conflict)
  ∧ (MultiDict.get "table" (args request) = Some table →
     Web.create w request database format = (w, Return conflict))
  ∧ status conflict = 409%Z.
Proof.
  intros Ht conflict.
  assert (Web.create_named w request database table format
          = (w, Return conflict)) as Hnamed.
  { unfold Web.create_named, db_contains, db_factory_create; simpl.
    unfold lookup_table in Ht. by rewrite Ht. }
  split; [done|]. split; [|done].
  intros Hget. unfold Web.create. by rewrite Hget.
Qed.

Lemma create_existing_conflict_witness :
  lookup_table Sample.world "d" "t" = Some Sample.people
  ∧ Web.create_named Sample.world
      (Sample.request ∅ [Sample.row_2c]) "d" "t" (Some "json")
    = (Sample.world,
       Return (render_message "Table already exists: t"
                 (FmtArg (Some "json")) error 409 (Some "/db/d/t"))).
Proof.
  split; [reflexivity|].
  apply (create_existing_conflict Sample.world
           (Sample.request ∅ [Sample.row_2c]) "d" "t" (Some "json")
           Sample.people).
  reflexivity.
Defined.

(** C8: once [delete] has dropped a table, every read of that table in the
    resulting store is refused with 404, "No such table". *)
Theorem read_after_delete w request database table format w' resp :
  Web.delete w request database table format = (w', Return resp) →
  resp = render_message ("Table dropped: " +:+ table) (FmtArg format)
           success 410 None
  ∧ lookup_table w' database table = None
  ∧ ∀ request' format',
      Web.read w' request' database table format'
      = Raise (WebstoreException
                 (render_message ("No such table: " +:+ table)
                    (FmtArg format') error 404 None)).
Proof.
  unfold Web.delete. intros Hdel.
  destruct (lookup_table w database table) as [t|] eqn:Ht.
  - rewrite (get_table_existing _ _ _ _ _ Ht) in Hdel.
    unfold drop in Hdel; simpl in Hdel.
    injection Hdel as <- <-.
    pose proof (lookup_table_commit w database table None) as Hgone.
    split; [done|]. split; [done|].
    intros request' format'. unfold Web.read.
    by rewrite (get_table_missing _ _ _ _ Hgone).
  - by rewrite (get_table_missing _ _ _ _ Ht) in Hdel.
Qed.

Lemma read_after_delete_witness :
  Web.read (Web.delete Sample.world (Sample.request ∅ []) "d" "t" None).1
    (Sample.request ∅ []) "d" "t" None
  = Raise (WebstoreException
             (render_message "No such table: t" (FmtArg None) error 404
                None)).
Proof.
  refine (proj2 (proj2 (read_after_delete Sample.world
            (Sample.request ∅ []) "d" "t" None _ _ _)) _ _).
  reflexivity.
Defined.

Lemma foldl_skip_empty {A} (step : A → Row → A) (a : A) pre post :
  step (foldl step a pre) ∅ = foldl step a pre →
  foldl step a (pre ++ ∅ :: post) = foldl step a (pre ++ post).
Proof. intros Hskip. rewrite !foldl_app. simpl. by rewrite Hskip. Qed.

(** C9: in both write paths an empty row of the posted sequence is skipped:
    the batch does what it does without that row, and a batch of empty rows
    leaves an existing table, and the whole store, as it was. *)
Theorem empty_rows_skipped w request database table format pre post :
  Web.create_named w (with_rows request (pre ++ ∅ :: post)) database table
    format
  = Web.create_named w (with_rows request (pre ++ post)) database table
      format
  ∧ Web.update w (with_rows request (pre ++ ∅ :: post)) database table format
    = Web.update w (with_rows request (pre ++ post)) database table format
  ∧ ∀ n t, lookup_table w database table = Some t →
      (Web.update w (with_rows request (replicate n ∅)) database table
         format).1 = w.
Proof.
  split; [|split].
  - unfold Web.create_named, read_request, with_rows; simpl.
    destruct (db_contains _ _); [done|].
    rewrite foldl_skip_empty; [done|].
    by rewrite (proj2 (keys_length_0 ∅) eq_refl).
  - unfold Web.update, read_request, with_rows; simpl.
    destruct (Web._get_table _ _ _ _); [|done].
    rewrite foldl_skip_empty; [done|]. apply update_step_empty.
  - intros n t Ht. unfold Web.update, read_request, with_rows; simpl.
    rewrite (get_table_existing _ _ _ _ _ Ht); simpl.
    assert (∀ h, foldl (Web.update_step
                (MultiDict.getlist "unique" (args request))) h
                (replicate n ∅) = h) as ->.
    { induction n as [|n IH]; intros h; simpl; [done|].
      by rewrite update_step_empty. }
    by apply commit_unchanged.
Qed.

Lemma empty_rows_skipped_witness :
  lookup_table Sample.world "d" "t" = Some Sample.people
  ∧ (Web.update Sample.world (Sample.request ∅ [∅]) "d" "t" None).1
    = Sample.world.
Proof.
  split; [reflexivity|].
  apply (proj2 (proj2 (empty_rows_skipped Sample.world
           (Sample.request ∅ []) "d" "t" None [] [])) 1%nat Sample.people).
  reflexivity.
Defined.



End Writes.

(** ** Upsert *)

Section Upsert.
Implicit Types (h : TableHandle) (row r : Row) (w : World) (t : Table).
Implicit Types (unique : list string) (rs : list Row).

Lemma matching_none unique row k rs :
  (∀ r, r ∈ rs → row_matches unique row r = false) →
  matching unique row k rs = [].
Proof.
  revert k. induction rs as [|r0 rs IH]; intros k Hno; simpl; [done|].
  rewrite (Hno r0) by left. apply IH. intros r Hr. apply Hno. by right.
Qed.

Lemma matching_single unique row k rs i r :
  rs !! i = Some r →
  row_matches unique row r = true →
  (∀ j r', rs !! j = Some r' → row_matches unique row r' = true → j = i) →
  matching unique row k rs = [(k + i)%nat].
Proof.
  revert k i. induction rs as [|r0 rs IH]; intros k i Hi Hm Honly; [done|].
  destruct i as [|i]; simpl in *.
  - injection Hi as ->. rewrite Hm, Nat.add_0_r. f_equal.
    apply matching_none. intros r' Hr'.
    destruct (row_matches unique row r') eqn:E; [|done].
    apply list_elem_of_lookup_1 in Hr' as [j Hj].
    by specialize (Honly (S j) r' Hj E).
  - destruct (row_matches unique row r0) eqn:E.
    + by specialize (Honly 0%nat r0 eq_refl E).
    + rewrite (IH (S k) i Hi Hm); [f_equal; lia|].
      intros j r' Hj Hr'. specialize (Honly (S j) r' Hj Hr'). lia.
Qed.

(** A non-empty row that [update_row] does not place is appended. *)
Lemma update_step_insert unique database table t row :
  row ≠ ∅ →
  unique = [] ∨ (∀ r, r ∈ rows t → row_matches unique row r = false) →
  Web.update_step unique (mkHandle database table (Some t)) row
  = mkHandle database table
      (Some (mkTable (ensure_columns row (columns t)) (rows t ++ [row]))).
Proof.
  intros Hne Hcase. unfold Web.update_step. rewrite keys_nonempty by done.
  assert (update_row unique row (mkHandle database table (Some t))
          = (mkHandle database table (Some t), false)) as ->.
  { unfold update_row; simpl. destruct Hcase as [->|Hno]; [done|].
    destruct unique; [done|]. by rewrite matching_none. }
  simpl. unfold add_row; simpl. by rewrite decide_False.
Qed.

(** A non-empty row matching exactly one stored row replaces its values
    there. *)
Lemma update_step_update unique database table t row i r :
  row ≠ ∅ → unique ≠ [] →
  rows t !! i = Some r →
  row_matches unique row r = true →
  (∀ j r', rows t !! j = Some r' → row_matches unique row r' = true →
           j = i) →
  Web.update_step unique (mkHandle database table (Some t)) row
  = mkHandle database table
      (Some (mkTable (ensure_columns row (columns t))
               (<[i := row ∪ r]> (rows t)))).
Proof.
  intros Hne Hu Hi Hm Honly. unfold Web.update_step.
  rewrite keys_nonempty by done. unfold update_row; simpl.
  destruct unique as [|u unique]; [done|].
  rewrite (matching_single _ _ 0 _ i r) by done. simpl.
  do 3 f_equal. rewrite list_insert_alter.
  apply list_alter_ext; [|done]. intros r' Hr'. congruence.
Qed.

(** [update_step] keeps the handle on its table. *)
Lemma update_steps_handle unique database table t reader :
  ∃ t', foldl (Web.update_step unique) (mkHandle database table (Some t))
          reader
        = mkHandle database table (Some t').
Proof.
  revert t. induction reader as [|row reader IH]; intros t; simpl; [eauto|].
  assert (∃ t', Web.update_step unique (mkHandle database table (Some t)) row
                = mkHandle database table (Some t')) as [t' ->]; [|done].
  unfold Web.update_step, update_row, add_row; simpl.
  destruct (_ =? _); [eauto|].
  destruct unique; simpl.
  - case_decide; eauto.
  - destruct (matching _ _ _ _) as [|? [|? ?]]; simpl;
      try case_decide; eauto.
Qed.

(** What [update] stores for the table: the posted rows folded over it. *)
Lemma update_stored w request database table format t :
  lookup_table w database table = Some t →
  lookup_table (Web.update w request database table format).1 database table
  = h_table (foldl (Web.update_step
                      (MultiDict.getlist "unique" (args request)))
               (mkHandle database table (Some t)) (body_rows request)).
Proof.
  intros Ht. unfold Web.update, read_request.
  rewrite (get_table_existing _ _ _ _ _ Ht); simpl.
  destruct (update_steps_handle (MultiDict.getlist "unique" (args request))
              database table t (body_rows request)) as [t' ->].
  apply lookup_table_commit.
Qed.

(** C1: in an upsert on an existing table, take any posted non-empty row and
    the table [t1] as the rows posted before it leave it.  With no unique
    columns the row is appended, no matching attempted.  With unique
    columns, a row no stored row matches is appended (row count + 1), and a
    row that exactly one stored row matches replaces that row's values in
    place, the other rows and the row count unchanged. *)
Theorem update_upserts w request database table format pre row t1 :
  let unique := MultiDict.getlist "unique" (args request) in
  let stored reader :=
    lookup_table
      (Web.update w (with_rows request reader) database table format).1
      database table in
  is_Some (lookup_table w database table) →
  row ≠ ∅ →
  stored pre = Some t1 →
  ∃ t2, stored (pre ++ [row]) = Some t2
    ∧ (unique = [] → rows t2 = rows t1 ++ [row])
    ∧ (unique ≠ [] →
       (∀ r, r ∈ rows t1 → row_matches unique row r = false) →
       rows t2 = rows t1 ++ [row]
       ∧ List.length (rows t2) = S (List.length (rows t1)))
    ∧ (unique ≠ [] →
       ∀ i r, rows t1 !! i = Some r →
         row_matches unique row r = true →
         (∀ j r', rows t1 !! j = Some r' →
                  row_matches unique row r' = true → j = i) →
         rows t2 = <[i := row ∪ r]> (rows t1)
         ∧ List.length (rows t2) = List.length (rows t1)).
Proof.
  intros unique stored [t Ht] Hne Hpre. unfold stored in *.
  rewrite (update_stored _ _ _ _ _ t Ht) in Hpre.
  rewrite (update_stored _ _ _ _ _ t Ht). simpl in *.
  fold unique in Hpre |- *. rewrite foldl_snoc.
  destruct (update_steps_handle unique database table t pre) as [t' Hfold].
  rewrite Hfold in Hpre |- *. simpl in Hpre. injection Hpre as ->.
  destruct (update_steps_handle unique database table t1 [row]) as [t2 Hstep].
  simpl in Hstep. exists t2. rewrite Hstep. split; [done|].
  split; [|split].
  - intros Hu. rewrite update_step_insert in Hstep by auto.
    by injection Hstep as <-.
  - intros Hu Hno. rewrite update_step_insert in Hstep by auto.
    injection Hstep as <-. simpl. split; [done|].
    rewrite length_app. simpl. lia.
  - intros Hu i r Hi Hm Honly.
    rewrite (update_step_update _ _ _ _ _ i r) in Hstep by done.
    injection Hstep as <-. simpl. split; [done|]. apply length_insert.
Qed.

Lemma update_upserts_witness :
  rows <$> lookup_table
    (Web.update Sample.world
       (Sample.request {[ "unique" := ("id", []) ]}
          [Sample.row_2c; Sample.row_1b]) "d" "t" None).1 "d" "t"
  = Some [Sample.row_1b; Sample.row_2c].
Proof.
  destruct (update_upserts Sample.world
              (Sample.request {[ "unique" := ("id", []) ]} []) "d" "t" None
              [Sample.row_2c] Sample.row_1b
              (mkTable ["id"; "name"] [Sample.row_1a; Sample.row_2c]))
    as (t2 & Hstored & _ & _ & Hupdate).
  - by eexists.
  - by vm_compute.
  - reflexivity.
  - destruct (Hupdate ltac:(by vm_compute) 0%nat Sample.row_1a) as [Hrows _].
    + reflexivity.
    + reflexivity.
    + intros [|[|j]] r' Hj Hr'; [done| |done].
      injection Hj as <-. by vm_compute in Hr'.
    + etrans; [exact (f_equal (fmap rows) Hstored)|].
      simpl. rewrite Hrows. reflexivity.
Defined.

End Upsert.

(** ** Query translation *)

Section Translation.
Implicit Types (h : TableHandle) (params : MultiDict.t) (kw : kwargs).
Implicit Types (values : list string) (sorts : list sort_clause).

(** [int] returns an integer or raises the [ValueError] naming its
    argument. *)
Lemma int_cases v :
  (∃ n, Py.int v = Return n) ∨ Py.int v = Raise (Py.invalid_literal v).
Proof. unfold Py.int. repeat case_match; eauto. Qed.

Lemma pop_int_absent key params :
  params !! key = None → Web.pop_int key params = Return (None, params).
Proof.
  intros Hk. unfold Web.pop_int, MultiDict.contains.
  rewrite Hk. by rewrite bool_decide_eq_false_2 by by intros [? ?].
Qed.

Lemma pop_int_present key params v vs :
  params !! key = Some (v, vs) →
  Web.pop_int key params
  = (n ← Py.int v; Return (Some n, delete key params)).
Proof.
  intros Hk. unfold Web.pop_int, MultiDict.contains, MultiDict.pop.
  rewrite Hk. by rewrite bool_decide_eq_true_2 by eauto.
Qed.

(** The outcome of one control parameter: absent, an integer, or the
    [ValueError] naming its text. *)
Lemma pop_int_cases key params :
  (∃ n, parsed (MultiDict.get key params) n
        ∧ Web.pop_int key params = Return (n, delete key params))
  ∨ (∃ v, MultiDict.get key params = Some v
          ∧ (∀ n, Py.int v ≠ Return n)
          ∧ Web.pop_int key params = Raise (Py.invalid_literal v)).
Proof.
  unfold MultiDict.get. destruct (params !! key) as [[v vs]|] eqn:Hk.
  - rewrite (pop_int_present _ _ _ _ Hk). simpl.
    destruct (int_cases v) as [[n Hn]|Hbad]; [left|right].
    + exists (Some n). split; [exact Hn|]. by rewrite Hn.
    + exists v. split; [done|]. split; [|by rewrite Hbad].
      intros n. by rewrite Hbad.
  - left. exists None. rewrite (pop_int_absent _ _ Hk).
    by rewrite delete_id.
Qed.

Lemma contains_split1 c s :
  Py.contains c s = true → is_Some (Py.split1 c s).
Proof.
  induction s as [|d s IH]; simpl; [done|].
  case_decide; [eauto|]. intros [[a b] ->]%IH. simpl. eauto.
Qed.

Lemma split1_first_separator order column :
  Py.contains ":" order = false →
  Py.split1 ":" (order +:+ ":" +:+ column) = Some (order, column)
  ∧ Py.contains ":" (order +:+ ":" +:+ column) = true.
Proof.
  change (":" +:+ column) with (String ":" column).
  induction order as [|d order IH]; intros Hc.
  - change ("" +:+ String ":" column) with (String ":" column).
    cbn. by rewrite !decide_True.
  - change (String d order +:+ String ":" column)
      with (String d (order +:+ String ":" column)).
    cbn in *. case_decide; [done|]. by destruct (IH Hc) as [-> ->].
Qed.

(** A value whose direction lowers to [asc] or [desc] adds that clause on
    the text after its first separator, whatever that text holds. *)
Lemma sort_loop_known order column d values sorts :
  Py.contains ":" order = false →
  (Py.lower order = "asc" ∧ d = Asc) ∨ (Py.lower order = "desc" ∧ d = Desc) →
  Web.sort_loop ((order +:+ ":" +:+ column) :: values) sorts
  = Web.sort_loop values (sorts ++ [mkSort d column]).
Proof.
  intros Hc Hd. simpl.
  destruct (split1_first_separator order column Hc) as [-> ->]. simpl.
  unfold Web.order_get. by destruct Hd as [[-> ->]|[-> ->]].
Qed.

(** Any other direction makes the loop call the text ['asc']. *)
Lemma sort_loop_unknown order column values sorts :
  Py.contains ":" order = false →
  Py.lower order ≠ "asc" → Py.lower order ≠ "desc" →
  Web.sort_loop ((order +:+ ":" +:+ column) :: values) sorts
  = Raise (TypeError "'str' object is not callable").
Proof.
  intros Hc Hasc Hdesc. simpl.
  destruct (split1_first_separator order column Hc) as [-> ->]. simpl.
  unfold Web.order_get. by rewrite !decide_False.
Qed.

(** After values of known direction, a value without separator is
    refused. *)
Lemma sort_loop_no_separator before sort after sorts :
  Forall known_direction before →
  Py.contains ":" sort = false →
  Web.sort_loop (before ++ sort :: after) sorts
  = Raise (WebstoreException
             (render_message "Invalid sorting format, use: order:column"
                FmtBuiltin error 400 None)).
Proof.
  intros Hknown Hsort. revert sorts.
  induction Hknown as [|s before Hs Hknown IH]; intros sorts; simpl.
  - by rewrite Hsort.
  - destruct (Py.contains ":" s) eqn:Hc; simpl; [|done].
    destruct (contains_split1 _ _ Hc) as [[order column] Hsplit].
    rewrite Hsplit. unfold Web.order_get.
    destruct (Hs order column Hsplit) as [->| ->]; simpl; by apply IH.
Qed.

(** The loop raises nothing but its own 400 and the [TypeError]. *)
Lemma sort_loop_raises values sorts e :
  Web.sort_loop values sorts = Raise e →
  e = WebstoreException
        (render_message "Invalid sorting format, use: order:column"
           FmtBuiltin error 400 None)
  ∨ e = TypeError "'str' object is not callable".
Proof.
  revert sorts. induction values as [|s values IH]; intros sorts; [done|].
  simpl. destruct (Py.contains ":" s) eqn:Hc; simpl.
  - destruct (contains_split1 _ _ Hc) as [[order column] ->].
    destruct (Web.order_get (Py.lower order)); simpl.
    + apply IH.
    + intros [= <-]. by right.
  - intros [= <-]. by left.
Qed.

(** [_request_query] once its two integers are read. *)
Lemma request_query_paged h params kw limit offset :
  Web.pop_int "_limit" params = Return (limit, delete "_limit" params) →
  Web.pop_int "_offset" (delete "_limit" params)
  = Return (offset, delete "_offset" (delete "_limit" params)) →
  Web._request_query h params kw
  = (sorts ← Web.sort_loop (MultiDict.getlist "_sort" params) [];
     Return (delete "_sort" (delete "_offset" (delete "_limit" params)),
             Web._query h
               (mkArgs (from_option Some limit (kw_limit kw))
                  (from_option Some offset (kw_offset kw)) sorts))).
Proof.
  intros Hl Ho. unfold Web._request_query. rewrite Hl. simpl.
  rewrite Ho. simpl. unfold MultiDict.getlist.
  by rewrite !lookup_delete_ne by done.
Qed.

End Translation.

Section Control_parameters.
Implicit Types (h : TableHandle) (params : MultiDict.t) (kw : kwargs).

Lemma parsed_not_refused v limit :
  parsed (Some v) limit → (∀ n, Py.int v ≠ Return n) → False.
Proof. destruct limit as [n|]; simpl; [|done]. intros Hn Hbad. by eapply Hbad. Qed.

(** Translation either refuses an integer, [_limit] first, or goes on to
    the sort values with both integers read and popped. *)
Lemma request_query_cases h params kw :
  (∃ v, (MultiDict.get "_limit" params = Some v
         ∨ MultiDict.get "_offset" params = Some v)
        ∧ (∀ n, Py.int v ≠ Return n)
        ∧ Web._request_query h params kw
          = Raise (WebstoreException (invalid_value v)))
  ∨ (∃ limit offset,
       parsed (MultiDict.get "_limit" params) limit
       ∧ parsed (MultiDict.get "_offset" params) offset
       ∧ Web._request_query h params kw
         = (sorts ← Web.sort_loop (MultiDict.getlist "_sort" params) [];
            Return (delete "_sort" (delete "_offset" (delete "_limit" params)),
                    Web._query h
                      (mkArgs (from_option Some limit (kw_limit kw))
                         (from_option Some offset (kw_offset kw)) sorts)))).
Proof.
  destruct (pop_int_cases "_limit" params)
    as [(limit & Hlimit & Hl)|(v & Hv & Hbad & Hl)].
  - destruct (pop_int_cases "_offset" (delete "_limit" params))
      as [(offset & Hoffset & Ho)|(v & Hv & Hbad & Ho)];
      unfold MultiDict.get in *;
      rewrite lookup_delete_ne in * by done.
    + right. exists limit, offset. split; [done|]. split; [done|].
      by apply request_query_paged.
    + left. exists v. split; [by right|]. split; [done|].
      unfold Web._request_query. rewrite Hl. simpl. by rewrite Ho.
  - left. exists v. split; [by left|]. split; [done|].
    unfold Web._request_query. by rewrite Hl.
Qed.




End Control_parameters.

Section Sort_values.
Implicit Types (h : TableHandle) (params : MultiDict.t) (kw : kwargs).

(** C2: an unrecognised direction is to default to ascending order without
    failing.  On the code it fails: for [_sort=up:name] the lookup of the
    direction yields the text ['asc'] instead of the function, calling it
    raises [TypeError], and the read is served no response of the
    handlers. *)
Theorem sort_unknown_direction_raises :
  Web.order_get (Py.lower "up") = OrderStr "asc"
  ∧ Web._request_query (mkHandle "d" "t" (Some Sample.people))
      {[ "_sort" := ("up:name", []) ]} (mkKwargs None None)
    = Raise (TypeError "'str' object is not callable")
  ∧ Web.get_response
      (Web.read Sample.world
         (Sample.request {[ "_sort" := ("up:name", []) ]} []) "d" "t" None)
    = None.
Proof. split; [|split]; reflexivity. Qed.

(** The known directions are matched whatever their case. *)
Example sort_mixed_case :
  Web._request_query (mkHandle "d" "t" (Some Sample.people))
    {[ "_sort" := ("DeSc:name", ["ASC:id"]) ]} (mkKwargs None None)
  = Return (∅, Web._query (mkHandle "d" "t" (Some Sample.people))
                 (mkArgs None None [mkSort Desc "name"; mkSort Asc "id"])).
Proof. reflexivity. Qed.

(** C4 (amended): a [_sort] value needs at least one separator.  A value
    without one, after values of known direction, fails the request with a
    400, the sort-format message when the two integers read; a value with a
    known direction is split at its first separator, the rest of the text,
    further separators included, being the column. *)
Theorem sort_separator h params kw :
  (∀ before sort after,
     MultiDict.getlist "_sort" params = before ++ sort :: after →
     Forall known_direction before →
     Py.contains ":" sort = false →
     ∃ resp, Web._request_query h params kw = Raise (WebstoreException resp)
       ∧ bad_request resp
       ∧ (∀ limit offset,
            parsed (MultiDict.get "_limit" params) limit →
            parsed (MultiDict.get "_offset" params) offset →
            resp = render_message "Invalid sorting format, use: order:column"
                     FmtBuiltin error 400 None))
  ∧ (∀ order column d values sorts,
       Py.contains ":" order = false →
       (Py.lower order = "asc" ∧ d = Asc)
       ∨ (Py.lower order = "desc" ∧ d = Desc) →
       Web.sort_loop ((order +:+ ":" +:+ column) :: values) sorts
       = Web.sort_loop values (sorts ++ [mkSort d column])).
Proof.
  split; [|apply sort_loop_known].
  intros before sort after Hvalues Hknown Hsort.
  destruct (request_query_cases h params kw)
    as [(v & Hv & Hbad & ->)|(limit & offset & Hlimit & Hoffset & ->)].
  - eexists. split; [done|]. split; [unfold bad_request, invalid_value; eauto|].
    intros limit offset Hlimit Hoffset. exfalso.
    destruct Hv as [Hv|Hv].
    + rewrite Hv in Hlimit. by apply (parsed_not_refused _ _ Hlimit).
    + rewrite Hv in Hoffset. by apply (parsed_not_refused _ _ Hoffset).
  - rewrite Hvalues, sort_loop_no_separator by done. simpl.
    eexists. split; [done|]. split; [unfold bad_request; eauto|]. done.
Qed.

Lemma sort_separator_witness :
  Web._request_query (mkHandle "d" "t" (Some Sample.people))
    {[ "_sort" := ("asc:id", ["name"; "up:id"]) ]} (mkKwargs None None)
  = Raise (WebstoreException
             (render_message "Invalid sorting format, use: order:column"
                FmtBuiltin error 400 None)).
Proof.
  destruct (proj1 (sort_separator (mkHandle "d" "t" (Some Sample.people))
              {[ "_sort" := ("asc:id", ["name"; "up:id"]) ]}
              (mkKwargs None None))
              ["asc:id"] "name" ["up:id"]) as (resp & -> & _ & Hresp).
  - reflexivity.
  - constructor; [|constructor].
    intros order column [= <- <-]. by left.
  - reflexivity.
  - by rewrite (Hresp None None).
Defined.

(** C4 as stated fails: a value with two separators is accepted, its column
    being all the text after the first. *)
Lemma sort_two_separators_accepted :
  List.length (filter (λ c, c = ":"%char) (list_ascii_of_string "asc:a:b"))
  = 2%nat
  ∧ Web._request_query (mkHandle "d" "t" (Some Sample.people))
      {[ "_sort" := ("asc:a:b", []) ]} (mkKwargs None None)
    = Return (∅, Web._query (mkHandle "d" "t" (Some Sample.people))
                   (mkArgs None None [mkSort Asc "a:b"])).
Proof. split; reflexivity. Qed.

End Sort_values.

(** ** Read paths *)

Section Reads.
Implicit Types (h : TableHandle) (w : World) (t : Table) (args : QueryArgs).
Implicit Types (params : MultiDict.t) (order : list sort_clause).

(** With fuel for every pending tuple the generator yields them all. *)
Lemma fetch_loop_all fuel keys cols pending :
  List.length pending < fuel →
  Web.fetch_loop fuel keys (mkResult cols pending)
  = Web.dict_zip keys <$> pending.
Proof.
  revert pending. induction fuel as [|fuel IH]; intros pending Hfuel; [lia|].
  destruct pending as [|row pending]; simpl; [done|].
  f_equal. apply IH. simpl in Hfuel. lia.
Qed.

Lemma result_proxy_iterator_all rp :
  Web._result_proxy_iterator rp = Web.dict_zip (rp_keys rp) <$> rp_pending rp.
Proof.
  destruct rp as [cols pending]. unfold Web._result_proxy_iterator.
  apply fetch_loop_all. simpl. lia.
Qed.

Lemma insert_row_length order r rs :
  List.length (insert_row order r rs) = S (List.length rs).
Proof.
  induction rs as [|r' rs IH]; simpl; [done|].
  destruct (row_compare order r r'); simpl; by rewrite ?IH.
Qed.

Lemma sort_rows_length order rs :
  List.length (sort_rows order rs) = List.length rs.
Proof.
  unfold sort_rows. induction rs as [|r rs IH]; simpl; [done|].
  by rewrite insert_row_length, IH.
Qed.

Lemma filter_length_bound {A} (f : A → bool) (l : list A) :
  List.length (List.filter f l) ≤ List.length l.
Proof. induction l as [|x l IH]; simpl; [done|]. destruct (f x); simpl; lia. Qed.

Lemma paginate_beyond {A} limit o (l : list A) :
  List.length l ≤ Z.to_nat o → paginate limit (Some o) l = [].
Proof.
  intros Hlen. unfold paginate. rewrite (drop_ge l) by done.
  destruct limit as [n|]; [|done]. destruct (n <? 0)%Z; [done|].
  apply List.firstn_nil.
Qed.

Lemma known_sort_columns t order :
  Forall (λ s, sort_col s ∈ columns t) order →
  filter (λ s, sort_col s ∉ columns t) order = [].
Proof.
  induction 1 as [|s order Hs _ IH]; [done|].
  rewrite filter_cons. by rewrite decide_False by tauto.
Qed.

(** A select whose offset reaches the end of the table yields its columns
    and no row. *)
Lemma execute_select_beyond database table t whereclause args o :
  offset args = Some o →
  List.length (rows t) ≤ Z.to_nat o →
  Forall (λ s, sort_col s ∈ columns t) (order_by args) →
  execute_select (mkHandle database table (Some t)) whereclause args
  = Return (mkResult (columns t) []).
Proof.
  intros Ho Hlen Hcols. unfold execute_select; simpl.
  rewrite known_sort_columns by done. rewrite Ho.
  rewrite paginate_beyond; [done|].
  rewrite sort_rows_length.
  pose proof (filter_length_bound (clause_holds whereclause) (rows t)). lia.
Qed.

(** [_query] returns what the engine returns, or raises a 400. *)
Lemma query_cases h args whereclause :
  (∃ results, execute_select h whereclause args = Return results
              ∧ Web._query h args whereclause = Return results)
  ∨ (∃ message,
       Web._query h args whereclause
       = Raise (WebstoreException
                  (render_message ("Invalid query: " +:+ message) FmtBuiltin
                     error 400 None))).
Proof.
  unfold Web._query.
  destruct (execute_select h whereclause args) as [results|e] eqn:He.
  - left. by exists results.
  - right. unfold execute_select in He. repeat case_match; simplify_eq;
      simpl; eauto.
Qed.

(** A filter key the table has no column for is refused by the gateway. *)
Lemma args_to_clause_unknown database table t params key :
  is_Some (params !! key) → key ∉ columns t →
  ∃ key', is_Some (params !! key') ∧ (key' ∉ columns t)
    ∧ args_to_clause (mkHandle database table (Some t)) params
      = Raise (KeyError key').
Proof.
  intros [[v vs] Hkey] Hcol. unfold args_to_clause; simpl.
  destruct (filter _ (MultiDict.items params)) as [|[key' v'] rest] eqn:Hf.
  - assert ((key, v) ∈ filter (λ kv : string * string, kv.1 ∉ columns t)
              (MultiDict.items params)) as Hin.
    { apply list_elem_of_filter. split; [done|].
      unfold MultiDict.items. apply list_elem_of_fmap.
      exists (key, (v, vs)). split; [done|]. by apply elem_of_map_to_list. }
    rewrite Hf in Hin. by apply elem_of_nil in Hin.
  - exists key'.
    assert ((key', v') ∈ filter (λ kv : string * string, kv.1 ∉ columns t)
              (MultiDict.items params)) as Hin by (rewrite Hf; left).
    apply list_elem_of_filter in Hin as [Hcol' Hin].
    unfold MultiDict.items in Hin.
    apply list_elem_of_fmap in Hin as ([k [x xs]] & [= -> ->] & Hin).
    apply elem_of_map_to_list in Hin. simpl in *. eauto.
Qed.

End Reads.

Section Read_claims.
Implicit Types (h : TableHandle) (w : World) (t : Table).

(** Closes [c ∉ l] for a literal column and a literal list of columns. *)
Local Ltac absent_column :=
  vm_compute; intros H%list_elem_of_In; simpl in H; intuition discriminate.

(** C5 (amended): a read by ordinal on an existing table.  Ordinal 0 always
    fails with the 400 about the header row.  Any other ordinal [n] still
    translates the request's control parameters: a response that translation
    fails with is the failure of the read.  When the translation returns,
    the read is the query with limit 1, offset [n - 1], the empty where
    clause and the request's sort values; and when [n] exceeds the row count
    and the sort columns exist, it succeeds with the table's columns and
    zero rows. *)
Theorem row_by_ordinal w request database table format t ord n :
  lookup_table w database table = Some t →
  Py.int ord = Return n →
  let h := mkHandle database table (Some t) in
  (n = 0%Z →
   Web.row w request database table ord format
   = Raise (WebstoreException
              (render_message "Starting at offset 1 to allow header row"
                 (FmtArg format) error 400 None)))
  ∧ (n ≠ 0%Z →
     ∀ params q,
       Web._request_query h (args request)
         (mkKwargs (Some 1%Z) (Some (n - 1)%Z)) = Return (params, q) →
       ∃ sorts,
         Web.sort_loop (MultiDict.getlist "_sort" (args request)) []
         = Return sorts
         ∧ Web.row w request database table ord format
           = (results ←
                Web._query h (mkArgs (Some 1%Z) (Some (n - 1)%Z) sorts)
                  ClauseEmpty;
              Return (render_table (Web._result_proxy_iterator results)
                        (rp_keys results) (FmtArg format)))
         ∧ ((Z.of_nat (List.length (rows t)) < n)%Z →
            Forall (λ s, sort_col s ∈ columns t) sorts →
            Web.row w request database table ord format
            = Return (render_table [] (columns t) (FmtArg format))))
  ∧ (n ≠ 0%Z →
     ∀ resp,
       Web._request_query h (args request)
         (mkKwargs (Some 1%Z) (Some (n - 1)%Z))
       = Raise (WebstoreException resp) →
       Web.row w request database table ord format
       = Raise (WebstoreException resp)).
Proof.
  intros Ht Hint h. unfold Web.row.
  rewrite (get_table_existing _ _ _ _ _ Ht). simpl. rewrite Hint. simpl.
  split; [|split].
  - intros ->. done.
  - intros Hn params q Hq. rewrite decide_False by done.
    fold h. rewrite Hq. simpl.
    destruct (request_query_cases h (args request)
                (mkKwargs (Some 1%Z) (Some (n - 1)%Z)))
      as [(v & _ & _ & Hbad)|(limit & offset & _ & _ & Hok)];
      rewrite Hq in *; [done|].
    destruct (Web.sort_loop _ _) as [sorts|e]; simpl in Hok; [|done].
    injection Hok as _ ->. simpl. exists sorts. split; [done|].
    split.
    + destruct (query_cases h (mkArgs (Some 1%Z) (Some (n - 1)%Z) sorts)
                  ClauseEmpty) as [(results & _ & ->)|(message & ->)]; done.
    + intros Hlen Hcols.
      destruct (query_cases h (mkArgs (Some 1%Z) (Some (n - 1)%Z) sorts)
                  ClauseEmpty) as [(results & Hsel & ->)|(message & Hraise)].
      * unfold h in Hsel.
        rewrite (execute_select_beyond _ _ _ _ _ (n - 1)%Z) in Hsel;
          [|done|simpl; lia|done].
        by injection Hsel as <-.
      * unfold Web._query, h in Hraise.
        rewrite (execute_select_beyond _ _ _ _ _ (n - 1)%Z) in Hraise;
          [done|done|simpl; lia|done].
  - intros Hn resp Hq. rewrite decide_False by done.
    fold h. by rewrite Hq.
Qed.

Lemma row_by_ordinal_witness :
  Web.row Sample.world
    (Sample.request {[ "_sort" := ("desc:name", []) ]} []) "d" "t" "5" None
  = Return (render_table [] ["id"; "name"] (FmtArg None)).
Proof.
  destruct (proj1 (proj2 (row_by_ordinal Sample.world
              (Sample.request {[ "_sort" := ("desc:name", []) ]} [])
              "d" "t" None Sample.people "5" 5%Z eq_refl eq_refl))
              ltac:(done) ∅
              (Web._query (mkHandle "d" "t" (Some Sample.people))
                 (mkArgs (Some 1%Z) (Some 4%Z) [mkSort Desc "name"]))
              eq_refl) as (sorts & Hsorts & _ & Hzero).
  injection Hsorts as <-. apply Hzero.
  - by vm_compute.
  - constructor; [|done]. vm_compute. apply list_elem_of_In. right. by left.
Defined.

(** C5 as stated fails: the table has one row and the ordinal is 5, yet a
    malformed [_limit], which the row endpoint overrides but still reads,
    makes the read fail with a 400. *)
Lemma row_beyond_end_bad_limit :
  List.length (rows Sample.people) = 1%nat
  ∧ Web.row Sample.world
      (Sample.request {[ "_limit" := ("abc", []) ]} []) "d" "t" "5" None
    = Raise (WebstoreException
               (render_message
                  "Invalid value: invalid literal for int() with base 10: 'abc'"
                  FmtBuiltin error 400 None)).
Proof. split; reflexivity. Qed.

(** C7 (amended): a read of an existing table with a filter parameter
    that names no column of it never succeeds: whatever response it is
    served is a 400.  When the control parameters translate, that response
    is the invalid-filter message for an unknown column of the request, which
    it shows quoted when the name is plain text; a malformed control
    parameter is reported first: a response that translation fails with is
    the failure of the read. *)
Theorem read_unknown_column w request database table format t key :
  lookup_table w database table = Some t →
  is_Some (args request !! key) →
  key ∉ ["_limit"; "_offset"; "_sort"] →
  key ∉ columns t →
  (∀ resp,
     Web.get_response (Web.read w request database table format) = Some resp →
     bad_request resp)
  ∧ (∀ params q,
       Web._request_query (mkHandle database table (Some t)) (args request)
         (mkKwargs None None) = Return (params, q) →
       ∃ key' shown, is_Some (args request !! key')
         ∧ (key' ∉ ["_limit"; "_offset"; "_sort"]) ∧ (key' ∉ columns t)
         ∧ Web.read w request database table format
           = Return (render_message ("Invalid filter: " +:+ shown)
                       (FmtArg format) error 400 None)
         ∧ (plain key' = true → shown = "'" +:+ key' +:+ "'"))
  ∧ (∀ resp,
       Web._request_query (mkHandle database table (Some t)) (args request)
         (mkKwargs None None) = Raise (WebstoreException resp) →
       Web.read w request database table format
       = Raise (WebstoreException resp)).
Proof.
  intros Ht Hkey Hcontrol Hcol.
  assert (key ≠ "_limit" ∧ key ≠ "_offset" ∧ key ≠ "_sort")
    as (Hl & Ho & Hs).
  { rewrite !not_elem_of_cons in Hcontrol. tauto. }
  set (h := mkHandle database table (Some t)).
  assert (∀ params q,
    Web._request_query h (args request) (mkKwargs None None)
    = Return (params, q) →
    ∃ key' shown, is_Some (args request !! key')
      ∧ (key' ∉ ["_limit"; "_offset"; "_sort"]) ∧ (key' ∉ columns t)
      ∧ Web.read w request database table format
        = Return (render_message ("Invalid filter: " +:+ shown)
                    (FmtArg format) error 400 None)
      ∧ (plain key' = true → shown = "'" +:+ key' +:+ "'")) as Hfilter.
  { intros params q Hq.
    destruct (request_query_cases h (args request) (mkKwargs None None))
      as [(v & _ & _ & Hbad)|(limit & offset & _ & _ & Hok)];
      rewrite Hq in *; [done|].
    destruct (Web.sort_loop _ _) as [sorts|e]; simpl in Hok; [|done].
    injection Hok as -> _.
    destruct (args_to_clause_unknown database table t
                (delete "_sort" (delete "_offset" (delete "_limit"
                   (args request)))) key) as (key' & Hkey' & Hcol' & Hclause).
    { by rewrite !lookup_delete_ne by done. }
    { done. }
    destruct Hkey' as [x Hx].
    apply lookup_delete_Some in Hx as [Hs' Hx].
    apply lookup_delete_Some in Hx as [Ho' Hx].
    apply lookup_delete_Some in Hx as [Hl' Hx].
    exists key', (Py.repr key'). split; [eauto|].
    split; [|split; [done|split; [|done]]].
    - rewrite !not_elem_of_cons. split_and!; try done. apply not_elem_of_nil.
    - unfold Web.read. rewrite (get_table_existing _ _ _ _ _ Ht). simpl.
      fold h. rewrite Hq. simpl. fold h in Hclause. by rewrite Hclause. }
  split; [|split; [done|]].
  2:{ intros resp Hq. unfold Web.read.
      rewrite (get_table_existing _ _ _ _ _ Ht). simpl. fold h.
      by rewrite Hq. }
  intros resp Hresp.
  destruct (Web._request_query h (args request) (mkKwargs None None))
    as [[params q]|e] eqn:Hq.
  - destruct (Hfilter params q eq_refl)
      as (key' & shown & _ & _ & _ & Hread & _).
    rewrite Hread in Hresp. injection Hresp as <-.
    unfold bad_request. eauto.
  - unfold Web.read in Hresp.
    rewrite (get_table_existing _ _ _ _ _ Ht) in Hresp. simpl in Hresp.
    fold h in Hresp. rewrite Hq in Hresp. simpl in Hresp.
    destruct (request_query_cases h (args request) (mkKwargs None None))
      as [(v & _ & _ & Hbad)|(limit & offset & _ & _ & Hok)];
      rewrite Hq in *.
    + injection Hbad as ->. injection Hresp as <-.
      unfold bad_request, invalid_value. eauto.
    + destruct (Web.sort_loop _ _) as [sorts|e'] eqn:Hsorts;
        simpl in Hok; [done|].
      injection Hok as ->.
      destruct (sort_loop_raises _ _ _ Hsorts) as [-> | ->]; [|done].
      injection Hresp as <-. unfold bad_request. eauto.
Qed.

Lemma read_unknown_column_witness :
  Web.read Sample.world
    (Sample.request {[ "colour" := ("red", ["blue"]) ]} []) "d" "t"
    (Some "csv")
  = Return (render_message "Invalid filter: 'colour'" (FmtArg (Some "csv"))
              error 400 None).
Proof.
  destruct (proj1 (proj2 (read_unknown_column Sample.world
              (Sample.request {[ "colour" := ("red", ["blue"]) ]} [])
              "d" "t" (Some "csv") Sample.people "colour" eq_refl
              ltac:(by eexists)
              ltac:(absent_column) ltac:(absent_column)))
              {[ "colour" := ("red", ["blue"]) ]}
              (Web._query (mkHandle "d" "t" (Some Sample.people))
                 (mkArgs None None []))
              eq_refl) as (key' & shown & [x Hx] & _ & _ & -> & Hshown).
  change (({[ "colour" := ("red", ["blue"]) ]} : MultiDict.t) !! key'
          = Some x) in Hx.
  apply lookup_singleton_Some in Hx as [<- _].
  by rewrite (Hshown eq_refl).
Defined.

(** C7 as stated fails: with a malformed [_limit] beside the unknown column
    the failure reported is the invalid value, not the unknown column. *)
Lemma read_unknown_column_bad_limit :
  ("colour" ∉ columns Sample.people)
  ∧ Web.read Sample.world
      (Sample.request {[ "colour" := ("red", []); "_limit" := ("abc", []) ]}
         []) "d" "t" None
    = Raise (WebstoreException
               (render_message
                  "Invalid value: invalid literal for int() with base 10: 'abc'"
                  FmtBuiltin error 400 None)).
Proof.
  split; [absent_column|reflexivity].
Qed.

End Read_claims.

(** ** Examples *)

Example lower_mixed : Py.lower "DeSc" = "desc".
Proof. reflexivity. Qed.

Example int_blanks : Py.int " 42 " = Return 42%Z.
Proof. reflexivity. Qed.

Example int_refused :
  Py.int "4x" = Raise (ValueError "invalid literal for int() with base 10: '4x'").
Proof. reflexivity. Qed.

Example int_signs :
  Py.int "+7" = Return 7%Z ∧ Py.int "-0" = Return 0%Z
  ∧ Py.int "- 7" = Raise (Py.invalid_literal "- 7")
  ∧ Py.int "" = Raise (Py.invalid_literal "").
Proof. repeat split; reflexivity. Qed.

Example split1_first : Py.split1 ":" "asc:a:b" = Some ("asc", "a:b").
Proof. reflexivity. Qed.

(** The spec's upsert example: posting [{id: 1, name: b}] and then
    [{id: 2, name: c}] with unique column [id] updates the one row in place
    and appends the other. *)
Example upsert_update_then_insert :
  rows <$> lookup_table
    (Web.update Sample.world
       (Sample.request {[ "unique" := ("id", []) ]}
          [Sample.row_1b; Sample.row_2c]) "d" "t" None).1 "d" "t"
  = Some [Sample.row_1b; Sample.row_2c].
Proof. reflexivity. Qed.

(** Without unique columns the same rows are both appended. *)
Example upsert_without_unique :
  rows <$> lookup_table
    (Web.update Sample.world
       (Sample.request ∅ [Sample.row_1b; ∅; Sample.row_2c]) "d" "t" None).1
    "d" "t"
  = Some [Sample.row_1a; Sample.row_1b; Sample.row_2c].
Proof. reflexivity. Qed.

(** A table created from posted rows is read back in full, and by ordinal. *)
Example create_then_read :
  let w := (Web.create_named Sample.world
              (Sample.request ∅ [Sample.row_2c; ∅; Sample.row_1a]) "d" "u"
              None).1 in
  Web.read w (Sample.request {[ "_sort" := ("asc:id", []) ]} []) "d" "u" None
  = Return (render_table [Sample.row_1a; Sample.row_2c] ["id"; "name"]
              (FmtArg None))
  ∧ Web.row w (Sample.request ∅ []) "d" "u" "1" None
    = Return (render_table [Sample.row_2c] ["id"; "name"] (FmtArg None)).
Proof. split; reflexivity. Qed.

(** ** The row cursor *)

Section Cursor.
Implicit Types (l : list (string * scalar)) (acc d : Row) (rp : ResultProxy).

Lemma foldl_insert_absent l acc k :
  (∀ j v, l !! j ≠ Some (k, v)) →
  foldl (λ d kv, <[kv.1 := kv.2]> d) acc l !! k = acc !! k.
Proof.
  revert acc. induction l as [|[k0 v0] l IH]; intros acc Hno; simpl; [done|].
  rewrite IH.
  - apply lookup_insert_ne. intros ->. by apply (Hno 0%nat v0).
  - intros j v. apply (Hno (S j) v).
Qed.

(** In [dict(pairs)] a key holds the value of its last pair. *)
Lemma foldl_insert_last l acc j k v :
  l !! j = Some (k, v) →
  (∀ j' v', j < j' → l !! j' ≠ Some (k, v')) →
  foldl (λ d kv, <[kv.1 := kv.2]> d) acc l !! k = Some v.
Proof.
  revert acc j. induction l as [|[k0 v0] l IH]; intros acc j Hj Hlast; [done|].
  destruct j as [|j]; simpl in *.
  - injection Hj as -> ->. rewrite foldl_insert_absent.
    + apply lookup_insert_eq.
    + intros j v'. apply (Hlast (S j) v'). lia.
  - apply (IH _ j); [done|]. intros j' v' Hlt. apply (Hlast (S j') v'). lia.
Qed.

Lemma foldl_insert_source l acc k v :
  foldl (λ d kv, <[kv.1 := kv.2]> d) acc l !! k = Some v →
  acc !! k = Some v ∨ (k, v) ∈ l.
Proof.
  revert acc. induction l as [|[k0 v0] l IH]; intros acc Hk; simpl in *;
    [by left|].
  apply IH in Hk as [Hk|Hk]; [|right; by right].
  apply lookup_insert_Some in Hk as [[-> ->]|[_ Hk]]; [right; left|by left].
Qed.

(** X1: the generator ends, with one record for each pending tuple, in order.
    The record of a tuple holds, for a column name, the value at the last
    position where that name stands (within the tuple's width), and holds
    nothing but values of the tuple under their column names. *)
Theorem result_proxy_iterator_records rp :
  List.length (Web._result_proxy_iterator rp) = List.length (rp_pending rp)
  ∧ ∀ i row, rp_pending rp !! i = Some row →
      ∃ d : Row, Web._result_proxy_iterator rp !! i = Some d
        ∧ (∀ j k v, rp_keys rp !! j = Some k → row !! j = Some v →
             (∀ j', j < j' → j' < List.length row →
                    rp_keys rp !! j' ≠ Some k) →
             d !! k = Some v)
        ∧ (∀ k v, d !! k = Some v →
             ∃ j, rp_keys rp !! j = Some k ∧ row !! j = Some v).
Proof.
  rewrite result_proxy_iterator_all. split; [apply length_fmap|].
  intros i row Hrow. exists (Web.dict_zip (rp_keys rp) row).
  rewrite list_lookup_fmap, Hrow. split; [done|]. split.
  - intros j k v Hk Hv Hlast. unfold Web.dict_zip.
    apply (foldl_insert_last _ _ j).
    + apply lookup_zip_with_Some. eauto.
    + intros j' v' Hlt (k' & v'' & [= <- <-] & Hk' & Hv')%lookup_zip_with_Some.
      apply (Hlast j'); [done| |done]. by eapply lookup_lt_Some.
  - intros k v Hd. unfold Web.dict_zip in Hd.
    apply foldl_insert_source in Hd as [Hd|Hd]; [by rewrite lookup_empty in Hd|].
    apply list_elem_of_lookup_1 in Hd as [j Hj].
    apply lookup_zip_with_Some in Hj as (k' & v' & [= <- <-] & Hk & Hv).
    eauto.
Qed.

Lemma result_proxy_iterator_records_witness :
  ∃ d : Row,
    Web._result_proxy_iterator
      (mkResult ["id"; "name"; "id"] [[SInt 1; SStr "a"; SInt 7]]) !! 0%nat
    = Some d
    ∧ d !! "id" = Some (SInt 7) ∧ d !! "name" = Some (SStr "a").
Proof.
  destruct (proj2 (result_proxy_iterator_records
              (mkResult ["id"; "name"; "id"] [[SInt 1; SStr "a"; SInt 7]]))
              0%nat [SInt 1; SStr "a"; SInt 7] eq_refl)
    as (d & Hd & Hvalue & _).
  exists d. split; [exact Hd|]. split.
  - apply (Hvalue 2%nat); [reflexivity|reflexivity|].
    intros j' Hlt Hlen. simpl in Hlen. lia.
  - apply (Hvalue 1%nat); [reflexivity|reflexivity|].
    intros [|[|[|j']]] Hlt Hlen; simpl in *; try lia. discriminate.
Defined.

End Cursor.

(** ** Tables that are not there, ordinals that are no numbers *)

Section Not_found.
Implicit Types (w : World) (t : Table).

(** X2: on a table the database does not hold, [read], [row], [update] and
    [delete] all fail with the same 404, whatever the query parameters, the
    ordinal or the posted rows, and the two write paths leave the store as it
    was. *)
Theorem missing_table_not_found w request database table format ord :
  lookup_table w database table = None →
  let not_found : Exc Response :=
    Raise (WebstoreException
             (render_message ("No such table: " +:+ table) (FmtArg format)
                error 404 None)) in
  Web.read w request database table format = not_found
  ∧ Web.row w request database table ord format = not_found
  ∧ Web.update w request database table format = (w, not_found)
  ∧ Web.delete w request database table format = (w, not_found).
Proof.
  intros Ht not_found.
  unfold Web.read, Web.row, Web.update, Web.delete.
  by rewrite (get_table_missing _ _ _ format Ht).
Qed.

Lemma missing_table_not_found_witness :
  Web.update Sample.world
    (Sample.request {[ "_limit" := ("abc", []) ]} [Sample.row_2c]) "d" "u"
    (Some "json")
  = (Sample.world,
     Raise (WebstoreException
              (render_message "No such table: u" (FmtArg (Some "json"))
                 error 404 None))).
Proof.
  apply (missing_table_not_found Sample.world
           (Sample.request {[ "_limit" := ("abc", []) ]} [Sample.row_2c])
           "d" "u" (Some "json") "1").
  reflexivity.
Defined.

(** X3: on an existing table, an ordinal of plain text that [int] refuses
    fails the read with the 400 naming the text of the ordinal, before any
    query parameter is looked at. *)
Theorem row_invalid_ordinal w request database table format t ord :
  lookup_table w database table = Some t →
  plain ord = true →
  (∀ n, Py.int ord ≠ Return n) →
  Web.row w request database table ord format
  = Raise (WebstoreException
             (render_message ("Invalid row ID: " +:+ ord) (FmtArg format)
                error 400 None)).
Proof.
  intros Ht _ Hbad. unfold Web.row.
  rewrite (get_table_existing _ _ _ _ _ Ht). simpl.
  destruct (int_cases ord) as [[n Hn]|Hraise]; [by destruct (Hbad n)|].
  by rewrite Hraise.
Qed.

Lemma row_invalid_ordinal_witness :
  Web.row Sample.world (Sample.request {[ "_limit" := ("abc", []) ]} [])
    "d" "t" "first" None
  = Raise (WebstoreException
             (render_message "Invalid row ID: first" (FmtArg None) error 400
                None)).
Proof.
  apply (row_invalid_ordinal Sample.world
           (Sample.request {[ "_limit" := ("abc", []) ]} []) "d" "t" None
           Sample.people "first").
  - reflexivity.
  - reflexivity.
  - intros n Hn. vm_compute in Hn. discriminate Hn.
Defined.

End Not_found.

(** ** More on query translation *)

Section Translation_more.
Implicit Types (h : TableHandle) (params : MultiDict.t) (kw : kwargs).
Implicit Types (values : list string) (sorts : list sort_clause).

Lemma parsed_functional o n n' : parsed o n → parsed o n' → n = n'.
Proof. destruct o, n, n'; simpl; try done. congruence. Qed.

(** Translation with both integers absent or read. *)
Lemma request_query_parsed h params kw limit offset :
  parsed (MultiDict.get "_limit" params) limit →
  parsed (MultiDict.get "_offset" params) offset →
  Web._request_query h params kw
  = (sorts ← Web.sort_loop (MultiDict.getlist "_sort" params) [];
     Return (delete "_sort" (delete "_offset" (delete "_limit" params)),
             Web._query h
               (mkArgs (from_option Some limit (kw_limit kw))
                  (from_option Some offset (kw_offset kw)) sorts))).
Proof.
  intros Hlimit Hoffset.
  destruct (request_query_cases h params kw)
    as [(v & [Hv|Hv] & Hbad & _)|(limit' & offset' & Hlimit' & Hoffset' & ->)].
  - rewrite Hv in Hlimit. by destruct (parsed_not_refused _ _ Hlimit Hbad).
  - rewrite Hv in Hoffset. by destruct (parsed_not_refused _ _ Hoffset Hbad).
  - by rewrite (parsed_functional _ _ _ Hlimit Hlimit'),
      (parsed_functional _ _ _ Hoffset Hoffset').
Qed.

(** X4: the row endpoint reads [_limit] and [_offset] of the query string but
    does not use them: when both are integers, the read by ordinal is the
    read of the same request without them. *)
Theorem row_ignores_paging w request database table format ord limit offset :
  parsed (MultiDict.get "_limit" (args request)) limit →
  parsed (MultiDict.get "_offset" (args request)) offset →
  Web.row w request database table ord format
  = Web.row w
      (mkRequest (delete "_offset" (delete "_limit" (args request)))
         (content_type request) (data request) (body_rows request)
         (url_for request))
      database table ord format.
Proof.
  intros Hlimit Hoffset. unfold Web.row.
  destruct (Web._get_table w database table format) as [h|e]; [|done]. simpl.
  destruct (Py.int ord) as [n|e]; [|done]. simpl.
  destruct (decide (n = 0%Z)); [done|].
  rewrite (request_query_parsed h (args request) _ limit offset) by done.
  rewrite (request_query_parsed h (delete "_offset" (delete "_limit" _)) _
             None None).
  - unfold MultiDict.getlist. rewrite !lookup_delete_ne by done. simpl.
    replace (delete "_sort" (delete "_offset" (delete "_limit"
               (delete "_offset" (delete "_limit" (args request))))))
      with (delete "_sort" (delete "_offset" (delete "_limit" (args request))));
      [done|].
    apply map_eq. intros key. rewrite !lookup_delete.
    by repeat case_decide.
  - unfold MultiDict.get.
    by rewrite lookup_delete_ne, lookup_delete_eq by done.
  - unfold MultiDict.get. by rewrite lookup_delete_eq.
Qed.

Lemma row_ignores_paging_witness :
  Web.row Sample.world
    (Sample.request {[ "_limit" := ("0", []); "_offset" := ("40", []) ]} [])
    "d" "t" "1" None
  = Web.row Sample.world (Sample.request ∅ []) "d" "t" "1" None.
Proof.
  etrans.
  - apply (row_ignores_paging Sample.world
             (Sample.request
                {[ "_limit" := ("0", []); "_offset" := ("40", []) ]} [])
             "d" "t" None "1" (Some 0%Z) (Some 40%Z)); reflexivity.
  - reflexivity.
Defined.

(** X5: a translation that returns passes on the parameters it was given
    without the three control keys: these are gone, every other key keeps
    its values. *)
Theorem request_query_remaining h params kw params' q :
  Web._request_query h params kw = Return (params', q) →
  (∀ key, key ∈ ["_limit"; "_offset"; "_sort"] → params' !! key = None)
  ∧ (∀ key, key ∉ ["_limit"; "_offset"; "_sort"] →
       params' !! key = params !! key).
Proof.
  intros Hq.
  destruct (request_query_cases h params kw)
    as [(v & _ & _ & Hbad)|(limit & offset & _ & _ & Hok)];
    rewrite Hq in *; [done|].
  destruct (Web.sort_loop _ _) as [sorts|e]; simpl in Hok; [|done].
  injection Hok as -> _. split; intros key Hkey.
  - rewrite !elem_of_cons, elem_of_nil in Hkey.
    destruct Hkey as [->|[->|[->|[]]]]; rewrite !lookup_delete;
      by repeat case_decide.
  - rewrite !not_elem_of_cons in Hkey. destruct Hkey as (Hl & Ho & Hs & _).
    by rewrite !lookup_delete_ne by done.
Qed.

Lemma request_query_remaining_witness :
  Web._request_query (mkHandle "d" "t" (Some Sample.people))
    {[ "name" := ("a", ["b"]); "_sort" := ("asc:id", []);
       "_limit" := ("5", []) ]} (mkKwargs None None)
  = Return ({[ "name" := ("a", ["b"]) ]},
            Web._query (mkHandle "d" "t" (Some Sample.people))
              (mkArgs (Some 5%Z) None [mkSort Asc "id"]))
  ∧ ({[ "name" := ("a", ["b"]) ]} : MultiDict.t) !! "_sort" = None
  ∧ ({[ "name" := ("a", ["b"]) ]} : MultiDict.t) !! "name"
    = ({[ "name" := ("a", ["b"]); "_sort" := ("asc:id", []);
          "_limit" := ("5", []) ]} : MultiDict.t) !! "name".
Proof.
  assert (Web._request_query (mkHandle "d" "t" (Some Sample.people))
            {[ "name" := ("a", ["b"]); "_sort" := ("asc:id", []);
               "_limit" := ("5", []) ]} (mkKwargs None None)
          = Return ({[ "name" := ("a", ["b"]) ]},
                    Web._query (mkHandle "d" "t" (Some Sample.people))
                      (mkArgs (Some 5%Z) None [mkSort Asc "id"]))) as Hq
    by reflexivity.
  split; [exact Hq|].
  destruct (request_query_remaining _ _ _ _ _ Hq) as [Hgone Hkept].
  split.
  - apply Hgone. rewrite !elem_of_cons. auto.
  - apply Hkept.
    rewrite !not_elem_of_cons. split_and!; try done. apply not_elem_of_nil.
Defined.

Lemma sort_loop_clauses values sorts out :
  Web.sort_loop values sorts = Return out →
  ∃ added, out = sorts ++ added
    ∧ List.length added = List.length values
    ∧ ∀ i value, values !! i = Some value →
        ∃ order column d,
          Py.split1 ":" value = Some (order, column)
          ∧ added !! i = Some (mkSort d column)
          ∧ Py.lower order = match d with Asc => "asc" | Desc => "desc" end.
Proof.
  revert sorts. induction values as [|value values IH]; intros sorts Hout.
  - injection Hout as <-. exists []. rewrite app_nil_r. by split.
  - simpl in Hout. destruct (Py.contains ":" value); simpl in Hout; [|done].
    destruct (Py.split1 ":" value) as [[order column]|] eqn:Hsplit; [|done].
    assert (∃ d, Web.order_get (Py.lower order) = OrderFn d
                 ∧ Py.lower order
                   = match d with Asc => "asc" | Desc => "desc" end)
      as (d & Hget & Hd).
    { unfold Web.order_get in *. repeat case_decide; eauto. done. }
    rewrite Hget in Hout. simpl in Hout.
    apply IH in Hout as (added & -> & Hlen & Hadded).
    exists (mkSort d column :: added). rewrite <- app_assoc.
    split; [done|]. split; [simpl; by rewrite Hlen|].
    intros [|i] value' Hi; simpl in *.
    + injection Hi as <-. by exists order, column, d.
    + by apply Hadded.
Qed.

(** X6: a translation that returns orders by one clause for each [_sort]
    value, in the order the values were given: the clause of a value sorts on
    the text after its first separator, in the direction its prefix names
    whatever its case. *)
Theorem request_query_sort_order h params kw params' q :
  Web._request_query h params kw = Return (params', q) →
  ∃ limit offset sorts,
    q = Web._query h (mkArgs limit offset sorts)
    ∧ List.length sorts = List.length (MultiDict.getlist "_sort" params)
    ∧ ∀ i value, MultiDict.getlist "_sort" params !! i = Some value →
        ∃ order column d,
          Py.split1 ":" value = Some (order, column)
          ∧ sorts !! i = Some (mkSort d column)
          ∧ Py.lower order = match d with Asc => "asc" | Desc => "desc" end.
Proof.
  intros Hq.
  destruct (request_query_cases h params kw)
    as [(v & _ & _ & Hbad)|(limit & offset & _ & _ & Hok)];
    rewrite Hq in *; [done|].
  destruct (Web.sort_loop _ _) as [sorts|e] eqn:Hsorts; simpl in Hok; [|done].
  injection Hok as _ ->.
  apply sort_loop_clauses in Hsorts as (added & -> & Hlen & Hadded).
  by eexists _, _, added.
Qed.

Lemma request_query_sort_order_witness :
  ∃ limit offset sorts,
    Web._query (mkHandle "d" "t" (Some Sample.people))
      (mkArgs None None [mkSort Desc "name"; mkSort Asc "id"])
    = Web._query (mkHandle "d" "t" (Some Sample.people))
        (mkArgs limit offset sorts)
    ∧ List.length sorts = 2%nat
    ∧ ∃ d, sorts !! 1%nat = Some (mkSort d "id")
           ∧ Py.lower "ASC" = match d with Asc => "asc" | Desc => "desc" end.
Proof.
  assert (Web._request_query (mkHandle "d" "t" (Some Sample.people))
            {[ "_sort" := ("Desc:name", ["ASC:id"]) ]} (mkKwargs None None)
          = Return (∅,
                    Web._query (mkHandle "d" "t" (Some Sample.people))
                      (mkArgs None None [mkSort Desc "name"; mkSort Asc "id"])))
    as Htranslated by reflexivity.
  destruct (request_query_sort_order _ _ _ _ _ Htranslated)
    as (limit & offset & sorts & Hq & Hlen & Hsorts).
  exists limit, offset, sorts. split; [exact Hq|]. split; [exact Hlen|].
  destruct (Hsorts 1%nat "ASC:id" eq_refl)
    as (order & column & d & [= <- <-] & Hclause & Hd).
  by exists d.
Defined.

Lemma sort_loop_prefix before :
  Forall (λ s, Py.contains ":" s = true ∧ known_direction s) before →
  ∃ added, ∀ rest sorts,
    Web.sort_loop (before ++ rest) sorts = Web.sort_loop rest (sorts ++ added).
Proof.
  induction 1 as [|s before [Hc Hs] _ [added IH]].
  - exists []. intros rest sorts. by rewrite app_nil_r.
  - destruct (contains_split1 _ _ Hc) as [[order column] Hsplit].
    destruct (Hs order column Hsplit) as [Hd|Hd].
    + exists (mkSort Asc column :: added). intros rest sorts. simpl.
      rewrite Hc, Hsplit. simpl. unfold Web.order_get. rewrite Hd. simpl.
      by rewrite IH, <- app_assoc.
    + exists (mkSort Desc column :: added). intros rest sorts. simpl.
      rewrite Hc, Hsplit. simpl. unfold Web.order_get. rewrite Hd. simpl.
      by rewrite IH, <- app_assoc.
Qed.

(** X7: a [_sort] value whose direction is neither [asc] nor [desc] in any
    case, reached after well-formed values with both integers read, makes
    the translation raise [TypeError]; a read of an existing table with such
    parameters is served no response of the handlers. *)
Theorem unknown_direction_type_error params limit offset before order column
    after :
  parsed (MultiDict.get "_limit" params) limit →
  parsed (MultiDict.get "_offset" params) offset →
  MultiDict.getlist "_sort" params
  = before ++ (order +:+ ":" +:+ column) :: after →
  Forall (λ s, Py.contains ":" s = true ∧ known_direction s) before →
  Py.contains ":" order = false →
  Py.lower order ≠ "asc" → Py.lower order ≠ "desc" →
  (∀ h kw, Web._request_query h params kw
           = Raise (TypeError "'str' object is not callable"))
  ∧ (∀ w request database table format t,
       args request = params →
       lookup_table w database table = Some t →
       Web.get_response (Web.read w request database table format) = None).
Proof.
  intros Hlimit Hoffset Hvalues Hbefore Hc Hasc Hdesc.
  assert (∀ h kw, Web._request_query h params kw
                  = Raise (TypeError "'str' object is not callable")) as Hq.
  { intros h kw. rewrite (request_query_parsed _ _ _ _ _ Hlimit Hoffset).
    rewrite Hvalues. destruct (sort_loop_prefix before Hbefore) as [added ->].
    by rewrite sort_loop_unknown. }
  split; [done|].
  intros w request database table format t <- Ht. unfold Web.read.
  rewrite (get_table_existing _ _ _ _ _ Ht). simpl. by rewrite Hq.
Qed.

Lemma unknown_direction_type_error_witness :
  Web.get_response
    (Web.read Sample.world
       (Sample.request
          {[ "_sort" := ("asc:id", ["Descending:name"]);
             "_limit" := ("1", []) ]} []) "d" "t" None)
  = None.
Proof.
  assert (Forall (λ s, Py.contains ":" s = true ∧ known_direction s)
            ["asc:id"]) as Hbefore.
  { constructor; [|constructor]. split; [reflexivity|].
    intros order column [= <- <-]. by left. }
  exact (proj2 (unknown_direction_type_error
           {[ "_sort" := ("asc:id", ["Descending:name"]);
              "_limit" := ("1", []) ]}
           (Some 1%Z) None ["asc:id"] "Descending" "name" []
           eq_refl I eq_refl Hbefore eq_refl
           ltac:(by vm_compute) ltac:(by vm_compute))
           Sample.world
           (Sample.request
              {[ "_sort" := ("asc:id", ["Descending:name"]);
                 "_limit" := ("1", []) ]} [])
           "d" "t" None Sample.people eq_refl eq_refl).
Defined.

End Translation_more.

(** ** Listing and creating tables *)

Section Tables.
Implicit Types (w : World) (t : Table) (h : TableHandle).

Lemma foldl_append_each {A B} (f : A → B) (l : list A) (init : list B) :
  foldl (λ acc x, acc ++ [f x]) init l = init ++ (f <$> l).
Proof.
  revert init. induction l as [|x l IH]; intros init; simpl.
  - by rewrite app_nil_r.
  - by rewrite IH, <- app_assoc.
Qed.

Lemma table_names_spec w database table :
  table ∈ table_names (db_factory_create w database)
  ↔ is_Some (lookup_table w database table).
Proof.
  unfold table_names, db_factory_create, lookup_table; simpl.
  rewrite list_elem_of_fmap. split.
  - intros ([k t] & -> & Hin). apply elem_of_map_to_list in Hin. eauto.
  - intros [t Ht]. exists (table, t). split; [done|].
    by apply elem_of_map_to_list.
Qed.

(** X8: the index of a database lists one record for each of its tables and
    nothing else: a table is listed, under its name and the URL that
    [url_for] builds for its read endpoint, exactly when the database holds
    it.  The payload announces a column [columns] that no record has. *)
Theorem index_lists_tables w request database format :
  let entry (table : string) : Row :=
    {[ "name" := SStr table;
       "url" := SStr (url_for request "read"
                        [("database", database); ("table", table)]) ]} in
  ∃ listed,
    Web.index w request database format
    = Return (render_table listed ["name"; "url"; "columns"] (FmtArg format))
    ∧ List.length listed = size (default (∅ : Database) (w !! database))
    ∧ (∀ table, is_Some (lookup_table w database table)
                ↔ entry table ∈ listed)
    ∧ (∀ r, r ∈ listed →
         r !! "columns" = None
         ∧ ∃ table, r = entry table
                    ∧ is_Some (lookup_table w database table)).
Proof.
  intros entry.
  exists (entry <$> table_names (db_factory_create w database)).
  split; [|split; [|split]].
  - unfold Web.index. by rewrite foldl_append_each.
  - unfold table_names, db_factory_create; simpl.
    by rewrite !length_fmap, length_map_to_list.
  - intros table. rewrite <- table_names_spec. split.
    + apply list_elem_of_fmap_2.
    + intros (table' & Heq & Hin)%list_elem_of_fmap.
      assert (entry table !! "name" = entry table' !! "name") as Hname
        by by rewrite Heq.
      unfold entry in Hname. rewrite !lookup_insert_eq in Hname.
      by injection Hname as ->.
  - intros r (table & -> & Hin)%list_elem_of_fmap. split.
    + unfold entry. by rewrite lookup_insert_ne, lookup_singleton_ne by done.
    + exists table. split; [done|]. by apply table_names_spec.
Qed.

Lemma index_lists_tables_witness :
  Web.index Sample.world (Sample.request ∅ []) "d" None
  = Return (render_table [{[ "name" := SStr "t"; "url" := SStr "/db/d/t" ]}]
              ["name"; "url"; "columns"] (FmtArg None)).
Proof.
  destruct (index_lists_tables Sample.world (Sample.request ∅ []) "d" None)
    as (listed & -> & Hlen & Hin & _).
  assert (List.length listed = 1%nat) as Hone by (rewrite Hlen; reflexivity).
  pose proof (proj1 (Hin "t") ltac:(by eexists)) as Ht.
  destruct listed as [|r [|r' listed]]; simpl in Hone; try discriminate.
  apply list_elem_of_singleton in Ht as <-. reflexivity.
Defined.

End Tables.

(** ** More on the write paths *)

Section Writes_more.
Implicit Types (w : World) (t : Table) (h : TableHandle) (row : Row).

(** The loop of [create_named] appends the non-empty rows, in order. *)
Lemma create_steps database table t reader :
  ∃ t',
    foldl (λ _table row,
             if negb (List.length (keys row) =? 0) then add_row row _table
             else _table)
      (mkHandle database table (Some t)) reader
    = mkHandle database table (Some t')
    ∧ rows t' = rows t ++ filter (λ r, r ≠ ∅) reader.
Proof.
  revert t. induction reader as [|row reader IH]; intros t; simpl.
  - exists t. by rewrite app_nil_r.
  - destruct (decide (row = ∅)) as [->|Hne].
    + rewrite (proj2 (keys_length_0 ∅) eq_refl). simpl.
      destruct (IH t) as (t' & Hfold & Hrows). exists t'. split; [done|].
      rewrite Hrows, filter_cons.
      by rewrite decide_False by (intros H; by apply H).
    + rewrite keys_nonempty by done. simpl.
      unfold add_row at 2; simpl. rewrite decide_False by done.
      destruct (IH (mkTable (ensure_columns row (columns t)) (rows t ++ [row])))
        as (t' & Hfold & Hrows).
      exists t'. split; [done|]. rewrite Hrows. simpl.
      rewrite filter_cons. rewrite decide_True by done.
      by rewrite <- app_assoc.
Qed.

(** [create_named] on a table the database does not hold. *)
Lemma create_named_absent w request database table format :
  lookup_table w database table = None →
  ∃ t', Web.create_named w request database table format
        = (commit w (mkHandle database table (Some t')),
           Return (render_message ("Successfully created: " +:+ table)
                     (FmtArg format) success 201
                     (Some (url_for request "read"
                              [("database", database); ("table", table)]))))
        ∧ rows t' = filter (λ r, r ≠ ∅) (body_rows request).
Proof.
  intros Ht. unfold Web.create_named, db_contains, db_getitem,
    db_factory_create, read_request; simpl.
  unfold lookup_table in Ht. rewrite Ht. simpl.
  destruct (create_steps database table (mkTable [] []) (body_rows request))
    as (t' & -> & Hrows).
  by exists t'.
Qed.

Lemma create_named_present w request database table format t :
  lookup_table w database table = Some t →
  (Web.create_named w request database table format).1 = w.
Proof.
  intros Ht. unfold Web.create_named, db_contains, db_factory_create; simpl.
  unfold lookup_table in Ht. by rewrite Ht.
Qed.

Lemma lookup_table_commit_other w database table o database' table' :
  (database', table') ≠ (database, table) →
  lookup_table (commit w (mkHandle database table o)) database' table'
  = lookup_table w database' table'.
Proof.
  intros Hne. unfold commit, lookup_table; simpl.
  destruct (decide (database' = database)) as [->|Hd].
  - assert (table ≠ table') as Ht by congruence.
    destruct o; rewrite lookup_insert_eq; simpl.
    + by rewrite lookup_insert_ne.
    + by rewrite lookup_delete_ne.
  - destruct o; by rewrite lookup_insert_ne.
Qed.

Lemma delete_succeeded w request database table format w' resp :
  Web.delete w request database table format = (w', Return resp) →
  w' = commit w (mkHandle database table None).
Proof.
  unfold Web.delete. intros Hdel.
  destruct (lookup_table w database table) as [t|] eqn:Ht.
  - rewrite (get_table_existing _ _ _ _ _ Ht) in Hdel.
    unfold drop in Hdel; simpl in Hdel. by injection Hdel as <- _.
  - by rewrite (get_table_missing _ _ _ _ Ht) in Hdel.
Qed.

(** X9: creating a table the database does not hold answers 201 with the URL
    that [url_for] builds for its read endpoint and stores the posted rows
    that are not empty, in the order posted; from then on a create of that
    table is refused with 409 and the store stays as it is. *)
Theorem create_named_new w request database table format :
  lookup_table w database table = None →
  ∃ w' t',
    Web.create_named w request database table format
    = (w', Return (render_message ("Successfully created: " +:+ table)
                     (FmtArg format) success 201
                     (Some (url_for request "read"
                              [("database", database); ("table", table)]))))
    ∧ lookup_table w' database table = Some t'
    ∧ rows t' = filter (λ r, r ≠ ∅) (body_rows request)
    ∧ ∀ request' format',
        Web.create_named w' request' database table format'
        = (w', Return (render_message ("Table already exists: " +:+ table)
                         (FmtArg format') error 409
                         (Some (url_for request' "read"
                                  [("database", database);
                                   ("table", table)])))).
Proof.
  intros Ht.
  destruct (create_named_absent w request database table format Ht)
    as (t' & -> & Hrows).
  eexists _, t'. split; [done|].
  pose proof (lookup_table_commit w database table (Some t')) as Hnew.
  split; [done|]. split; [done|].
  intros request' format'.
  unfold Web.create_named, db_contains, db_factory_create; simpl.
  unfold lookup_table in Hnew. by rewrite Hnew.
Qed.

Lemma create_named_new_witness :
  rows <$> lookup_table
    (Web.create_named Sample.world
       (Sample.request ∅ [Sample.row_2c; ∅; Sample.row_1a]) "d" "u" None).1
    "d" "u"
  = Some [Sample.row_2c; Sample.row_1a].
Proof.
  destruct (create_named_new Sample.world
              (Sample.request ∅ [Sample.row_2c; ∅; Sample.row_1a]) "d" "u"
              None eq_refl) as (w' & t' & Hcreate & Hstored & Hrows & _).
  rewrite Hcreate. simpl. rewrite Hstored. simpl. rewrite Hrows. reflexivity.
Defined.

(** X10: a create, an upsert or a delete changes no table but the one it is
    addressed to: every other table, of the same or of another database, is
    stored afterwards as it was before. *)
Theorem writes_touch_one_table w request database table format
    database' table' :
  (database', table') ≠ (database, table) →
  lookup_table (Web.create_named w request database table format).1
    database' table' = lookup_table w database' table'
  ∧ lookup_table (Web.update w request database table format).1
      database' table' = lookup_table w database' table'
  ∧ lookup_table (Web.delete w request database table format).1
      database' table' = lookup_table w database' table'.
Proof.
  intros Hne.
  destruct (lookup_table w database table) as [t|] eqn:Ht.
  - split; [|split].
    + by rewrite (create_named_present _ _ _ _ _ t).
    + unfold Web.update, read_request.
      rewrite (get_table_existing _ _ _ _ _ Ht); simpl.
      destruct (update_steps_handle
                  (MultiDict.getlist "unique" (args request)) database table
                  t (body_rows request)) as [t' ->].
      by apply lookup_table_commit_other.
    + unfold Web.delete. rewrite (get_table_existing _ _ _ _ _ Ht); simpl.
      by apply lookup_table_commit_other.
  - split; [|split].
    + destruct (create_named_absent w request database table format Ht)
        as (t' & -> & _). by apply lookup_table_commit_other.
    + unfold Web.update. by rewrite (get_table_missing _ _ _ _ Ht).
    + unfold Web.delete. by rewrite (get_table_missing _ _ _ _ Ht).
Qed.

Lemma writes_touch_one_table_witness :
  lookup_table
    (Web.delete Sample.world (Sample.request ∅ []) "d" "u" None).1 "d" "t"
  = Some Sample.people.
Proof.
  etrans.
  - apply (writes_touch_one_table Sample.world (Sample.request ∅ []) "d" "u"
             None "d" "t"). discriminate.
  - reflexivity.
Defined.

(** X11: after a delete that succeeded the table can be created again, and
    then holds the rows of that create alone. *)
Theorem recreate_after_delete w request database table format w1 resp
    request' format' :
  Web.delete w request database table format = (w1, Return resp) →
  ∃ w2 t',
    Web.create_named w1 request' database table format'
    = (w2, Return (render_message ("Successfully created: " +:+ table)
                     (FmtArg format') success 201
                     (Some (url_for request' "read"
                              [("database", database); ("table", table)]))))
    ∧ lookup_table w2 database table = Some t'
    ∧ rows t' = filter (λ r, r ≠ ∅) (body_rows request').
Proof.
  intros ->%delete_succeeded.
  pose proof (lookup_table_commit w database table None) as Hgone.
  destruct (create_named_absent _ request' database table format' Hgone)
    as (t' & -> & Hrows).
  eexists _, t'. split; [done|]. split; [|done].
  apply lookup_table_commit.
Qed.

Lemma recreate_after_delete_witness :
  rows <$> lookup_table
    (Web.create_named
       (Web.delete Sample.world (Sample.request ∅ []) "d" "t" None).1
       (Sample.request ∅ [Sample.row_2c]) "d" "t" None).1 "d" "t"
  = Some [Sample.row_2c].
Proof.
  destruct (recreate_after_delete Sample.world (Sample.request ∅ []) "d" "t"
              None
              (Web.delete Sample.world (Sample.request ∅ []) "d" "t" None).1
              (render_message "Table dropped: t" (FmtArg None) success 410
                 None)
              (Sample.request ∅ [Sample.row_2c]) None eq_refl)
    as (w2 & t' & Hcreate & Hstored & Hrows).
  rewrite Hcreate. simpl. rewrite Hstored. simpl. rewrite Hrows. reflexivity.
Defined.

Lemma update_step_grows unique database table t row :
  ∃ t',
    Web.update_step unique (mkHandle database table (Some t)) row
    = mkHandle database table (Some t')
    ∧ List.length (rows t) ≤ List.length (rows t') ≤ S (List.length (rows t))
    ∧ columns t `prefix_of` columns t'.
Proof.
  assert (∃ t', mkHandle database table (Some t)
                = mkHandle database table (Some t')
                ∧ List.length (rows t) ≤ List.length (rows t')
                  ≤ S (List.length (rows t))
                ∧ columns t `prefix_of` columns t') as Hsame.
  { exists t. split; [done|]. split; [lia|reflexivity]. }
  assert (∃ t', mkHandle database table
                  (Some (mkTable (ensure_columns row (columns t))
                           (rows t ++ [row])))
                = mkHandle database table (Some t')
                ∧ List.length (rows t) ≤ List.length (rows t')
                  ≤ S (List.length (rows t))
                ∧ columns t `prefix_of` columns t') as Happend.
  { eexists. split; [done|]. simpl. rewrite length_app. simpl.
    split; [lia|]. by eexists. }
  unfold Web.update_step, update_row, add_row; simpl.
  destruct (_ =? _); [done|].
  destruct unique; simpl.
  - by case_decide.
  - destruct (matching _ _ _ _) as [|i [|? ?]]; simpl.
    + by case_decide.
    + eexists. split; [done|]. simpl. rewrite length_alter.
      split; [lia|]. by eexists.
    + by case_decide.
Qed.

(** X13: an upsert on an existing table never removes a row or a column:
    afterwards the table has at least the rows it had, at most one more for
    each posted row, and its old columns at the front of its schema. *)
Theorem update_never_removes w request database table format t :
  lookup_table w database table = Some t →
  ∃ t',
    lookup_table (Web.update w request database table format).1 database table
    = Some t'
    ∧ List.length (rows t) ≤ List.length (rows t')
      ≤ List.length (rows t) + List.length (body_rows request)
    ∧ columns t `prefix_of` columns t'.
Proof.
  intros Ht. rewrite (update_stored _ _ _ _ _ t Ht).
  generalize (MultiDict.getlist "unique" (args request)) as unique.
  intros unique. generalize (body_rows request) as reader. intros reader.
  clear Ht. revert t.
  induction reader as [|row reader IH]; intros t; simpl.
  - exists t. split; [done|]. split; [lia|done].
  - destruct (update_step_grows unique database table t row)
      as (t1 & -> & Hlen & Hcols).
    destruct (IH t1) as (t' & -> & Hlen' & Hcols').
    exists t'. split; [done|]. split; [lia|by etrans].
Qed.

Lemma update_never_removes_witness :
  ∃ t',
    lookup_table
      (Web.update Sample.world
         (Sample.request {[ "unique" := ("id", []) ]}
            [Sample.row_1b; Sample.row_2c]) "d" "t" None).1 "d" "t"
    = Some t'
    ∧ 1 ≤ List.length (rows t') ≤ 3.
Proof.
  destruct (update_never_removes Sample.world
              (Sample.request {[ "unique" := ("id", []) ]}
                 [Sample.row_1b; Sample.row_2c]) "d" "t" None Sample.people
              eq_refl) as (t' & Hstored & Hlen & _).
  exists t'. split; [exact Hstored|]. simpl in Hlen. lia.
Defined.

End Writes_more.

(** ** More on the read paths *)

Section Reads_more.
Implicit Types (w : World) (t : Table) (h : TableHandle).

Lemma sort_rows_unordered (rs : list Row) : sort_rows [] rs = rs.
Proof.
  unfold sort_rows. induction rs as [|r rs IH]; simpl; [done|].
  rewrite IH. by destruct rs.
Qed.

Lemma filter_no_condition (rs : list Row) :
  List.filter (clause_holds (ClauseAnd [])) rs = rs.
Proof. induction rs as [|r rs IH]; simpl; [done|]. by rewrite IH. Qed.

(** The record of the full tuple of a row holds the row's cell at every
    column. *)
Lemma foldl_insert_cells (f : string → scalar) (cols : list string)
    (acc : Row) c :
  foldl (λ d kv, <[kv.1 := kv.2]> d) acc (zip cols (f <$> cols)) !! c
  = if decide (c ∈ cols) then Some (f c) else acc !! c.
Proof.
  revert acc. induction cols as [|c0 cols IH]; intros acc; simpl; [done|].
  rewrite IH. destruct (decide (c ∈ cols)) as [Hin|Hout].
  - rewrite decide_True; [done|]. by right.
  - destruct (decide (c = c0)) as [->|Hne].
    + rewrite lookup_insert_eq. rewrite decide_True; [done|]. by left.
    + rewrite lookup_insert_ne by done.
      rewrite decide_False; [done|]. rewrite not_elem_of_cons. tauto.
Qed.

(** X14: a read with no query parameters returns the table's columns and one
    record for each stored row, in stored order; the record holds the row's
    value at every column of the schema, [NULL] where the row has none, and
    nothing else. *)
Theorem read_without_parameters w request database table format t :
  lookup_table w database table = Some t →
  args request = ∅ →
  ∃ listed,
    Web.read w request database table format
    = Return (render_table listed (columns t) (FmtArg format))
    ∧ List.length listed = List.length (rows t)
    ∧ ∀ i r, rows t !! i = Some r →
        ∃ r' : Row, listed !! i = Some r'
          ∧ (∀ c, c ∈ columns t → r' !! c = Some (default SNull (r !! c)))
          ∧ (∀ c, c ∉ columns t → r' !! c = None).
Proof.
  intros Ht Hargs.
  exists (Web.dict_zip (columns t)
            <$> ((λ r, cell r <$> columns t) <$> rows t)).
  split; [|split].
  - unfold Web.read. rewrite (get_table_existing _ _ _ _ _ Ht). simpl.
    rewrite Hargs.
    rewrite (request_query_parsed _ ∅ _ None None) by done.
    unfold MultiDict.getlist. rewrite lookup_empty. simpl.
    rewrite !delete_empty.
    unfold args_to_clause, MultiDict.items. rewrite map_to_list_empty. simpl.
    unfold Web._query, execute_select. simpl.
    rewrite filter_no_condition, sort_rows_unordered. simpl.
    by rewrite result_proxy_iterator_all.
  - by rewrite !length_fmap.
  - intros i r Hr. eexists. rewrite !list_lookup_fmap, Hr. simpl.
    split; [done|]. unfold Web.dict_zip. split; intros c Hc.
    + rewrite (foldl_insert_cells (cell r)). by rewrite decide_True.
    + rewrite (foldl_insert_cells (cell r)). by rewrite decide_False.
Qed.

Lemma read_without_parameters_witness :
  ∃ listed,
    Web.read Sample.world (Sample.request ∅ []) "d" "t" None
    = Return (render_table listed ["id"; "name"] (FmtArg None))
    ∧ List.length listed = 1%nat
    ∧ ∃ r' : Row, listed !! 0%nat = Some r' ∧ r' !! "name" = Some (SStr "a").
Proof.
  destruct (read_without_parameters Sample.world (Sample.request ∅ []) "d"
              "t" None Sample.people eq_refl eq_refl)
    as (listed & Hread & Hlen & Hrows).
  exists listed. split; [exact Hread|]. split; [exact Hlen|].
  destruct (Hrows 0%nat Sample.row_1a eq_refl) as (r' & Hr' & Hcells & _).
  exists r'. split; [exact Hr'|].
  rewrite (Hcells "name"); [reflexivity|].
  apply list_elem_of_In. right. by left.
Defined.

End Reads_more.
